(** * TG_Bot_CinemaGuide: a shallow embedding of [bot.py]

    The bot relays a user's text to three catalogue search services (OMDb,
    TMDb, Google Books) or to a language model, and sends back text chunks
    and posters.  This file embeds the functions of [bot.py] as Rocq
    functions and proves the properties of the specification about them.

    Conventions of the embedding:
    - a Python [str] is a list of Unicode code points ([list N]), so that
      [len], slicing and [rfind] count characters as Python does;
    - a Python [int] is a [Z]; slices follow Python for negative bounds;
    - the [while] loop of [split_message] takes fuel: [None] means the loop
      is still running when the fuel is spent;
    - the body of a [try] returns a [result]: a value or a raised exception;
    - requests to the network are answered by an oracle, [network], which
      is given the events so far, the request included;
    - the memo of [functools.lru_cache] is part of the state of the
      process. *)

From Stdlib Require Import String Ascii Bool ZArith NArith Lia List.
From Stdlib Require DecimalString.
Import ListNotations.

#[local] Open Scope Z_scope.
#[local] Set Warnings "-register-all".

(** ** Python strings *)

Module Str.

Definition char := N.
Definition str := list char.

(** [len(s)] *)
Definition len (s : str) : Z := Z.of_nat (length s).

(** The truth value of a string: [while message:], [if not query:]. *)
Definition truthy (s : str) : bool :=
  match s with [] => false | _ :: _ => true end.

Fixpoint eqb (s t : str) : bool :=
  match s, t with
  | [], [] => true
  | c :: s', d :: t' => N.eqb c d && eqb s' t'
  | _, _ => false
  end.

(** [s[:k]], for any integer [k]: a negative bound counts from the end. *)
Definition slice_to (s : str) (k : Z) : str :=
  if k <? 0 then firstn (Z.to_nat (len s + k)) s
  else firstn (Z.to_nat k) s.

(** [s[k:]] for [k >= 0]; the code only uses [message[len(part):]]. *)
Definition slice_from (s : str) (k : Z) : str := skipn (Z.to_nat k) s.

(** [s.find(c)] for a one-character needle: the least index, or [-1]. *)
Fixpoint find (s : str) (c : char) : Z :=
  match s with
  | [] => -1
  | d :: s' =>
      if N.eqb d c then 0
      else let i := find s' c in if i =? -1 then -1 else i + 1
  end.

(** [s.rfind(c)] for a one-character needle: the greatest index, or [-1]. *)
Fixpoint rfind (s : str) (c : char) : Z :=
  match s with
  | [] => -1
  | d :: s' =>
      let i := rfind s' c in
      if i =? -1 then (if N.eqb d c then 0 else -1) else i + 1
  end.

(** [s.startswith(p)] *)
Fixpoint startswith (s p : str) : bool :=
  match p, s with
  | [], _ => true
  | _ :: _, [] => false
  | d :: p', c :: s' => N.eqb c d && startswith s' p'
  end.

(** [sub in s] *)
Fixpoint contains (s sub : str) : bool :=
  startswith s sub ||
  match s with
  | [] => false
  | _ :: s' => contains s' sub
  end.

(** [s.replace(old, new)] for a non-empty [old]: the occurrences of [old] are
    taken from left to right and do not overlap.  [skip] counts the
    characters of an occurrence that are still to be dropped. *)
Fixpoint replace_from (skip : nat) (s old new : str) : str :=
  match s with
  | [] => []
  | c :: s' =>
      match skip with
      | S k => replace_from k s' old new
      | O =>
          if startswith s old
          then new ++ replace_from (pred (length old)) s' old new
          else c :: replace_from O s' old new
      end
  end.

Definition replace (s old new : str) : str := replace_from O s old new.

(** [str.isspace] on one character: the code points CPython treats as white
    space ([_PyUnicode_IsWhitespace]). *)
Definition isspace (c : char) : bool :=
  let c := Z.of_N c in
  ((9 <=? c) && (c <=? 13)) || ((28 <=? c) && (c <=? 32))
  || (c =? 133) || (c =? 160) || (c =? 5760)
  || ((8192 <=? c) && (c <=? 8202))
  || (c =? 8232) || (c =? 8233) || (c =? 8239) || (c =? 8287) || (c =? 12288).

Fixpoint lstrip (s : str) : str :=
  match s with
  | [] => []
  | c :: s' => if isspace c then lstrip s' else s
  end.

Definition rstrip (s : str) : str := rev (lstrip (rev s)).

(** [s.strip()] *)
Definition strip (s : str) : str := rstrip (lstrip s).

(** [s.split(sep)[0]] for a one-character [sep]: the text before the first
    separator, the whole text when there is none. *)
Fixpoint split_head (s : str) (sep : char) : str :=
  match s with
  | [] => []
  | c :: s' => if N.eqb c sep then [] else c :: split_head s' sep
  end.

(** [sep.join(l)] *)
Fixpoint join (sep : str) (l : list str) : str :=
  match l with
  | [] => []
  | [s] => s
  | s :: l' => s ++ sep ++ join sep l'
  end.

(** Literals.  A literal of the source is written as a Rocq string, whose
    bytes are the UTF-8 encoding of the text; [utf8] decodes them. *)
Definition continuation (b : N) : N := N.land b 63.

Fixpoint utf8_bytes (bs : list N) : str :=
  match bs with
  | [] => []
  | b :: r =>
      if (b <? 128)%N then b :: utf8_bytes r
      else if (b <? 224)%N then
        match r with
        | b1 :: r' => (N.land b 31 * 64 + continuation b1)%N :: utf8_bytes r'
        | _ => []
        end
      else if (b <? 240)%N then
        match r with
        | b1 :: b2 :: r' =>
            (N.land b 15 * 4096 + continuation b1 * 64 + continuation b2)%N
              :: utf8_bytes r'
        | _ => []
        end
      else
        match r with
        | b1 :: b2 :: b3 :: r' =>
            (N.land b 7 * 262144 + continuation b1 * 4096
             + continuation b2 * 64 + continuation b3)%N :: utf8_bytes r'
        | _ => []
        end
  end.

Definition utf8 (s : string) : str :=
  utf8_bytes (map N_of_ascii (list_ascii_of_string s)).

(** The line feed, ['\n']. *)
Definition nl : char := 10%N.

End Str.

Import Str.

(** ** The paginator: [split_message] (bot.py, lines 160-172) *)

(** One run of the [while] loop.  [fuel] bounds the number of iterations that
    are followed; [None] says the loop has not returned within them.

    [[
    while message:
        if len(message) <= max_length:
            parts.append(message)
            break
        part = message[:max_length]
        last_newline = part.rfind('\n')
        if last_newline != -1:
            part = part[:last_newline]
        parts.append(part)
        message = message[len(part):]
    return parts
    ]] *)
Fixpoint split_message_loop (fuel : nat) (parts : list str) (message : str)
    (max_length : Z) : option (list str) :=
  match fuel with
  | O => None
  | S fuel' =>
      if negb (truthy message) then Some parts
      else if len message <=? max_length then Some (parts ++ [message])
      else
        let part := slice_to message max_length in
        let last_newline := rfind part nl in
        let part :=
          if negb (last_newline =? -1) then slice_to part last_newline
          else part in
        split_message_loop fuel' (parts ++ [part])
          (slice_from message (len part)) max_length
  end.

(** The part one iteration cuts from a [message] longer than [max_length],
    lines 166-169. *)
Definition cut (max_length : Z) (message : str) : str :=
  let part := slice_to message max_length in
  if negb (rfind part nl =? -1) then slice_to part (rfind part nl) else part.

(** [split_message(message, max_length)], with [parts = []] at the start. *)
Definition split_message (fuel : nat) (message : str) (max_length : Z)
    : option (list str) :=
  split_message_loop fuel [] message max_length.

(** The call returns [parts]: some number of iterations ends the loop. *)
Definition split_message_returns (message : str) (max_length : Z)
    (parts : list str) : Prop :=
  exists fuel, split_message fuel message max_length = Some parts.

(** The call never returns: the loop outlives every number of iterations. *)
Definition split_message_diverges (message : str) (max_length : Z) : Prop :=
  forall fuel, split_message fuel message max_length = None.

(** The default of the parameter [max_length]. *)
Definition default_max_length : Z := 4096.

(** ** Values decoded from JSON, and the Python operations on them *)

(** What [response.json()] returns.  A float is kept as the text Python
    prints for it ([repr]), which is all the bot observes of a float; an
    object is kept as its members in the order of the text. *)
Inductive json : Type :=
| JNull
| JBool (b : bool)
| JInt (z : Z)
| JFloat (shown : str)
| JStr (s : str)
| JArr (l : list json)
| JObj (items : list (str * json)).

Inductive exn : Type :=
| RequestException   (* ConnectionError, Timeout, InvalidURL, ... *)
| HTTPError          (* raised by raise_for_status; a RequestException *)
| JSONDecodeError    (* raised by response.json(); a RequestException *)
| AttributeError
| TypeError
| KeyError
| IndexError.

(** [except requests.exceptions.RequestException] catches these. *)
Definition is_request_exception (e : exn) : bool :=
  match e with
  | RequestException | HTTPError | JSONDecodeError => true
  | _ => false
  end.

Inductive result (A : Type) : Type :=
| Ok (a : A)
| Raise (e : exn).
Arguments Ok {A} a.
Arguments Raise {A} e.

Module Res.

Definition bind {A B : Type} (r : result A) (k : A -> result B) : result B :=
  match r with
  | Ok a => k a
  | Raise e => Raise e
  end.

End Res.

Declare Scope result_scope.
Delimit Scope result_scope with res.
Notation "x <- r ;; k" := (Res.bind r (fun x => k))
  (at level 61, r at next level, right associativity) : result_scope.

Module Py.

(** The truth value of an object: [if data.get('results'):]. *)
Definition truth (v : json) : bool :=
  match v with
  | JNull => false
  | JBool b => b
  | JInt z => negb (z =? 0)
  | JFloat shown =>
      negb (Str.eqb shown (utf8 "0.0") || Str.eqb shown (utf8 "-0.0"))
  | JStr s => truthy s
  | JArr l => match l with [] => false | _ => true end
  | JObj items => match items with [] => false | _ => true end
  end.

(** A member of an object; when a name is repeated the last one counts. *)
Fixpoint lookup (key : str) (items : list (str * json)) : option json :=
  match items with
  | [] => None
  | (k, v) :: rest =>
      match lookup key rest with
      | Some x => Some x
      | None => if Str.eqb k key then Some v else None
      end
  end.

(** [d.get(key, default)]: only a dict has [get]. *)
Definition get (d : json) (key : str) (default : json) : result json :=
  match d with
  | JObj items =>
      Ok (match lookup key items with Some v => v | None => default end)
  | _ => Raise AttributeError
  end.

(** [v == 'text'] and [v != 'text'] against a string literal. *)
Definition eq_str (v : json) (text : str) : bool :=
  match v with
  | JStr s => Str.eqb s text
  | _ => false
  end.

(** The keys of a dict, in the order of their first insertion. *)
Fixpoint keys (seen : list str) (items : list (str * json)) : list str :=
  match items with
  | [] => []
  | (k, _) :: rest =>
      if existsb (Str.eqb k) seen then keys seen rest
      else k :: keys (k :: seen) rest
  end.

(** The elements [for item in v] runs through. *)
Definition iter (v : json) : result (list json) :=
  match v with
  | JArr l => Ok l
  | JObj items => Ok (map JStr (keys [] items))
  | JStr s => Ok (map (fun c => JStr [c]) s)
  | _ => Raise TypeError
  end.

(** [str(z)] for an integer. *)
Definition decimal (z : Z) : str :=
  utf8 (DecimalString.NilZero.string_of_int (Z.to_int z)).

(** [v.split('-')[0]]: only a string has [split]. *)
Definition split_first (v : json) (sep : char) : result str :=
  match v with
  | JStr s => Ok (split_head s sep)
  | _ => Raise AttributeError
  end.

(** The elements of [sep.join(v)] must all be strings. *)
Fixpoint strings (l : list json) : result (list str) :=
  match l with
  | [] => Ok []
  | JStr s :: l' => (r <- strings l' ;; Ok (s :: r))%res
  | _ :: _ => Raise TypeError
  end.

(** [sep.join(v)] *)
Definition join (sep : str) (v : json) : result str :=
  (l <- iter v ;;
   ss <- strings l ;;
   Ok (Str.join sep ss))%res.

(** [v[key]] for a string key. *)
Definition item (v : json) (key : str) : result json :=
  match v with
  | JObj items =>
      match lookup key items with
      | Some x => Ok x
      | None => Raise KeyError
      end
  | _ => Raise TypeError
  end.

(** [v[0]] *)
Definition item0 (v : json) : result json :=
  match v with
  | JArr (x :: _) => Ok x
  | JArr [] => Raise IndexError
  | JStr (c :: _) => Ok (JStr [c])
  | JStr [] => Raise IndexError
  | JObj _ => Raise KeyError
  | _ => Raise TypeError
  end.

(** [v.strip()]: only a string has [strip]. *)
Definition strip (v : json) : result str :=
  match v with
  | JStr s => Ok (Str.strip s)
  | _ => Raise AttributeError
  end.

End Py.

(** ** The world outside [bot.py] *)

(** What the chat and the network see of the bot, oldest first. *)
Inductive event : Type :=
| Get (url : json)                        (* requests.get(url, ...) *)
| Post (url : str) (prompt : str)         (* requests.post to the model *)
| ReplyText (text : str)                  (* update.message.reply_text *)
| ReplyPhoto (photo : list N) (caption : str).

Record response : Type := {
  status_code : Z;
  content : list N;            (* response.content, the bytes of the body *)
  json_body : option json      (* the body as JSON, when it is JSON *)
}.

(** The outcome of [requests.get] or [requests.post]. *)
Inductive http_outcome : Type :=
| Failed                       (* a RequestException: no response *)
| Answered (r : response).

(** Everything [bot.py] takes from outside: two built-ins of Python that are
    tables too large to write out, the keys read from the environment, and
    the network, which answers a request knowing all that happened before. *)
Record env : Type := {
  lower : str -> str;                  (* str.lower() *)
  py_repr : json -> str;               (* str() of a list or a dict *)
  OMDB_API_KEY : str;
  TMDB_API_KEY : str;
  GOOGLE_BOOKS_API_KEY : str;
  MISTRAL_API_KEY : str;
  network : list event -> http_outcome
}.

(** [str(v)], as an f-string formats a value. *)
Definition py_str (E : env) (v : json) : str :=
  match v with
  | JNull => utf8 "None"
  | JBool true => utf8 "True"
  | JBool false => utf8 "False"
  | JInt z => Py.decimal z
  | JFloat shown => shown
  | JStr s => s
  | JArr _ | JObj _ => py_repr E v
  end.

(** The start of every [try] body: the request, [raise_for_status] (which
    raises for the statuses 400 to 599) and, for JSON services,
    [response.json()] (which raises a [RequestException] on a body that is
    not JSON, as requests does since version 2.27).  The other failures of
    the decoder, a [RecursionError] on a body nested too deep and a
    [ValueError] on an integer of too many digits, are not modelled. *)
Definition raise_for_status (r : response) : result unit :=
  if (400 <=? status_code r) && (status_code r <? 600) then Raise HTTPError
  else Ok tt.

Definition checked (o : http_outcome) : result response :=
  match o with
  | Failed => Raise RequestException
  | Answered r => (_ <- raise_for_status r ;; Ok r)%res
  end.

Definition response_json (r : response) : result json :=
  match json_body r with
  | Some data => Ok data
  | None => Raise JSONDecodeError
  end.

(** ** The three search functions (bot.py, lines 64-153) *)

#[local] Open Scope res.

(** A poster or cover to send: what was found under the URL key, and the
    caption. *)
Definition media_list : Type := list (json * str).

(** What a search function returns: the text and the media. *)
Definition value : Type := (str * media_list)%type.

Definition not_found : str := Eval vm_compute in utf8 "Извините, ничего не найдено.".
Definition fetch_error : str :=
  Eval vm_compute in utf8 "Произошла ошибка при получении данных. Попробуйте снова позже.".
Definition no_title : str := Eval vm_compute in utf8 "Название не указано".
Definition no_year : str := Eval vm_compute in utf8 "Год выпуска не указан".
Definition no_author : str := Eval vm_compute in utf8 "Автор не указан".
Definition no_published : str := Eval vm_compute in utf8 "Год издания не указан".
Definition TMDB_IMAGE_BASE_URL : str := Eval vm_compute in utf8 "https://image.tmdb.org/t/p/w500".
Definition movie_label : str := Eval vm_compute in utf8 "Фильм: ".
Definition series_label : str := Eval vm_compute in utf8 "Сериал: ".
Definition book_label : str := Eval vm_compute in utf8 "Книга: ".

(** [except requests.exceptions.RequestException: return "...", []] *)
Definition except_request_exception (r : result value) : result value :=
  match r with
  | Ok v => Ok v
  | Raise e => if is_request_exception e then Ok (fetch_error, []) else Raise e
  end.

(** *** OMDb *)

Definition omdb_url (E : env) (query : str) : str :=
  utf8 "http://www.omdbapi.com/?s=" ++ query ++ utf8 "&apikey="
  ++ OMDB_API_KEY E.

(** [f"{title} ({year})"] *)
Definition omdb_line (E : env) (title year : json) : str :=
  py_str E title ++ utf8 " (" ++ py_str E year ++ utf8 ")".

(** The [for item in results] loop, lines 76-82. *)
Fixpoint omdb_items (E : env) (results : list json)
    (recommendations : list str) (media : media_list)
    : result (list str * media_list) :=
  match results with
  | [] => Ok (recommendations, media)
  | item :: rest =>
      title <- Py.get item (utf8 "Title") (JStr no_title) ;;
      year <- Py.get item (utf8 "Year") (JStr no_year) ;;
      poster_url <- Py.get item (utf8 "Poster") JNull ;;
      let recommendations := recommendations ++ [omdb_line E title year] in
      let media :=
        if Py.truth poster_url && negb (Py.eq_str poster_url (utf8 "N/A"))
        then media ++ [(poster_url, omdb_line E title year)]
        else media in
      omdb_items E rest recommendations media
  end.

(** The body of the [try], lines 68-85, given the outcome of its request. *)
Definition omdb_try (E : env) (o : http_outcome) : result value :=
  response <- checked o ;;
  data <- response_json response ;;
  status <- Py.get data (utf8 "Response") JNull ;;
  if Py.eq_str status (utf8 "True") then
    results <- Py.get data (utf8 "Search") (JArr []) ;;
    results <- Py.iter results ;;
    found <- omdb_items E results [] [] ;;
    Ok (Str.join [nl] (fst found), snd found)
  else Ok (not_found, []).

(** What [get_recommendations_omdb] returns or raises, given the outcome of
    its request. *)
Definition omdb_result (E : env) (o : http_outcome) : result value :=
  except_request_exception (omdb_try E o).

(** *** TMDb *)

Definition tmdb_url (E : env) (query : str) : str :=
  utf8 "https://api.themoviedb.org/3/search/multi?api_key=" ++ TMDB_API_KEY E
  ++ utf8 "&language=ru-RU&query=" ++ query
  ++ utf8 "&page=1&include_adult=false".

(** [date.split('-')[0] if date else 'Год выпуска не указан'] *)
Definition tmdb_year (date : json) : result str :=
  if Py.truth date then Py.split_first date 45%N else Ok no_year.

(** [f"Фильм: {title} ({...})"] and [f"Сериал: {name} ({...})"] *)
Definition tmdb_line (E : env) (label : str) (title : json) (date : json)
    : result str :=
  year <- tmdb_year date ;;
  Ok (label ++ py_str E title ++ utf8 " (" ++ year ++ utf8 ")").

(** One branch of the loop body, lines 104-110 and 112-118. *)
Definition tmdb_item (E : env) (label title_key date_key : str) (item : json)
    (recommendations : list str) (media : media_list)
    : result (list str * media_list) :=
  title <- Py.get item title_key (JStr no_title) ;;
  date <- Py.get item date_key (JStr no_year) ;;
  poster_path <- Py.get item (utf8 "poster_path") JNull ;;
  line <- tmdb_line E label title date ;;
  let recommendations := recommendations ++ [line] in
  if Py.truth poster_path then
    let poster_url := TMDB_IMAGE_BASE_URL ++ py_str E poster_path in
    caption <- tmdb_line E label title date ;;
    Ok (recommendations, media ++ [(JStr poster_url, caption)])
  else Ok (recommendations, media).

(** The [for item in results] loop, lines 102-118. *)
Fixpoint tmdb_items (E : env) (results : list json)
    (recommendations : list str) (media : media_list)
    : result (list str * media_list) :=
  match results with
  | [] => Ok (recommendations, media)
  | item :: rest =>
      media_type <- Py.get item (utf8 "media_type") JNull ;;
      acc <-
        (if Py.eq_str media_type (utf8 "movie") then
           tmdb_item E movie_label (utf8 "title") (utf8 "release_date") item
             recommendations media
         else
           media_type <- Py.get item (utf8 "media_type") JNull ;;
           if Py.eq_str media_type (utf8 "tv") then
             tmdb_item E series_label (utf8 "name") (utf8 "first_air_date")
               item recommendations media
           else Ok (recommendations, media)) ;;
      tmdb_items E rest (fst acc) (snd acc)
  end.

(** The body of the [try], lines 94-121. *)
Definition tmdb_try (E : env) (o : http_outcome) : result value :=
  response <- checked o ;;
  data <- response_json response ;;
  results <- Py.get data (utf8 "results") JNull ;;
  if Py.truth results then
    results <- Py.get data (utf8 "results") (JArr []) ;;
    results <- Py.iter results ;;
    found <- tmdb_items E results [] [] ;;
    Ok (Str.join [nl] (fst found), snd found)
  else Ok (not_found, []).

Definition tmdb_result (E : env) (o : http_outcome) : result value :=
  except_request_exception (tmdb_try E o).

(** *** Google Books *)

Definition books_url (E : env) (query : str) : str :=
  utf8 "https://www.googleapis.com/books/v1/volumes?q=" ++ query
  ++ utf8 "&key=" ++ GOOGLE_BOOKS_API_KEY E ++ utf8 "&langRestrict=ru".

(** [f"Книга: {title} ({published_date}) - Авторы: {authors}"] *)
Definition books_line (E : env) (title published_date : json) (authors : str)
    : str :=
  book_label ++ py_str E title ++ utf8 " (" ++ py_str E published_date
  ++ utf8 ") - Авторы: " ++ authors.

(** Line 141. *)
Definition books_authors (volume_info : json) : result str :=
  authors <- Py.get volume_info (utf8 "authors") JNull ;;
  if Py.truth authors then
    authors <- Py.get volume_info (utf8 "authors") (JArr [JStr no_author]) ;;
    Py.join (utf8 ", ") authors
  else Ok no_author.

(** The [for item in results] loop, lines 138-147. *)
Fixpoint books_items (E : env) (results : list json)
    (recommendations : list str) (media : media_list)
    : result (list str * media_list) :=
  match results with
  | [] => Ok (recommendations, media)
  | item :: rest =>
      volume_info <- Py.get item (utf8 "volumeInfo") (JObj []) ;;
      title <- Py.get volume_info (utf8 "title") (JStr no_title) ;;
      authors <- books_authors volume_info ;;
      published_date <-
        Py.get volume_info (utf8 "publishedDate") (JStr no_published) ;;
      image_links <- Py.get volume_info (utf8 "imageLinks") (JObj []) ;;
      thumbnail_url <- Py.get image_links (utf8 "thumbnail") JNull ;;
      let line := books_line E title published_date authors in
      let recommendations := recommendations ++ [line] in
      let media :=
        if Py.truth thumbnail_url then media ++ [(thumbnail_url, line)]
        else media in
      books_items E rest recommendations media
  end.

(** The body of the [try], lines 130-150. *)
Definition books_try (E : env) (o : http_outcome) : result value :=
  response <- checked o ;;
  data <- response_json response ;;
  items <- Py.get data (utf8 "items") JNull ;;
  if Py.truth items then
    results <- Py.get data (utf8 "items") (JArr []) ;;
    results <- Py.iter results ;;
    found <- books_items E results [] [] ;;
    Ok (Str.join [nl] (fst found), snd found)
  else Ok (not_found, []).

Definition books_result (E : env) (o : http_outcome) : result value :=
  except_request_exception (books_try E o).

(** ** The language model (bot.py, lines 32-62) *)

Definition mistral_url : str := Eval vm_compute in utf8 "https://api.mistral.ai/v1/chat/completions".
Definition mistral_error : str :=
  Eval vm_compute in utf8 "Произошла ошибка при обработке запроса. Попробуйте снова позже.".
Definition mistral_bad_answer : str :=
  Eval vm_compute in utf8 "Произошла ошибка в ответе от Mistral API. Попробуйте снова позже.".

(** The body of the [try], lines 48-51. *)
Definition mistral_try (o : http_outcome) : result str :=
  response <- checked o ;;
  data <- response_json response ;;
  choices <- Py.item data (utf8 "choices") ;;
  choice <- Py.item0 choices ;;
  message <- Py.item choice (utf8 "message") ;;
  content <- Py.item message (utf8 "content") ;;
  Py.strip content.

(** The three [except] clauses, lines 52-62. *)
Definition mistral_result (o : http_outcome) : result str :=
  match mistral_try o with
  | Ok text => Ok text
  | Raise HTTPError => Ok mistral_error
  | Raise RequestException | Raise JSONDecodeError => Ok mistral_error
  | Raise KeyError => Ok mistral_bad_answer
  | Raise e => Raise e
  end.

#[local] Close Scope res.

(** ** The state of the process and the monad of the handlers *)

(** The memo of [functools.lru_cache]: query and returned value, the most
    recently used first. *)
Definition cache : Type := list (str * value).

Record state : Type := {
  trace : list event;
  omdb_cache : cache;
  tmdb_cache : cache;
  books_cache : cache
}.

Definition initial_state : state :=
  {| trace := []; omdb_cache := []; tmdb_cache := []; books_cache := [] |}.

Inductive provider : Type := OMDb | TMDb | Books.

Definition cache_of (p : provider) (st : state) : cache :=
  match p with
  | OMDb => omdb_cache st
  | TMDb => tmdb_cache st
  | Books => books_cache st
  end.

Definition with_cache (p : provider) (c : cache) (st : state) : state :=
  match p with
  | OMDb => {| trace := trace st; omdb_cache := c;
               tmdb_cache := tmdb_cache st; books_cache := books_cache st |}
  | TMDb => {| trace := trace st; omdb_cache := omdb_cache st;
               tmdb_cache := c; books_cache := books_cache st |}
  | Books => {| trace := trace st; omdb_cache := omdb_cache st;
                tmdb_cache := tmdb_cache st; books_cache := c |}
  end.

Definition with_trace (t : list event) (st : state) : state :=
  {| trace := t; omdb_cache := omdb_cache st; tmdb_cache := tmdb_cache st;
     books_cache := books_cache st |}.

(** A computation changes the state and returns a value or raises; [None]
    says a loop in it has not returned within the fuel given. *)
Definition M (A : Type) : Type := state -> option (result A * state).

Module Monad.

Definition ret {A : Type} (a : A) : M A := fun st => Some (Ok a, st).

Definition bind {A B : Type} (m : M A) (k : A -> M B) : M B :=
  fun st =>
    match m st with
    | Some (Ok a, st') => k a st'
    | Some (Raise e, st') => Some (Raise e, st')
    | None => None
    end.

Definition of_result {A : Type} (r : result A) : M A :=
  fun st => Some (r, st).

Definition of_option {A : Type} (o : option A) : M A :=
  fun st => match o with Some a => Some (Ok a, st) | None => None end.

(** The effect [ev] is recorded. *)
Definition emit (ev : event) : M unit :=
  fun st => Some (Ok tt, with_trace (trace st ++ [ev]) st).

End Monad.

Declare Scope monad_scope.
Delimit Scope monad_scope with monad.
Notation "x <- m ;; k" := (Monad.bind m (fun x => k))
  (at level 61, m at next level, right associativity) : monad_scope.
Notation "m ;; k" := (Monad.bind m (fun _ => k))
  (at level 61, right associativity) : monad_scope.

#[local] Open Scope monad_scope.

(** A request is recorded and the network answers it. *)
Definition request (E : env) (ev : event) : M http_outcome :=
  Monad.emit ev ;;
  fun st => Some (Ok (network E (trace st)), st).

(** [update.message.reply_text(text)]; sending to the chat is taken to
    succeed, the chat platform being outside [bot.py]. *)
Definition reply_text (text : str) : M unit := Monad.emit (ReplyText text).

Definition reply_photo (photo : list N) (caption : str) : M unit :=
  Monad.emit (ReplyPhoto photo caption).

(** *** [functools.lru_cache(maxsize=128)] *)

Definition maxsize : nat := 128.

Fixpoint cache_find (query : str) (c : cache) : option value :=
  match c with
  | [] => None
  | (q, v) :: rest => if Str.eqb q query then Some v else cache_find query rest
  end.

Fixpoint cache_remove (query : str) (c : cache) : cache :=
  match c with
  | [] => []
  | (q, v) :: rest =>
      if Str.eqb q query then cache_remove query rest
      else (q, v) :: cache_remove query rest
  end.

(** A hit returns the stored value and makes its entry the most recent; a
    miss calls [f], and stores what it returns (not what it raises),
    dropping the least recently used entry when the memo is full. *)
Definition lru_cache (p : provider) (f : str -> M value) (query : str)
    : M value :=
  fun st =>
    match cache_find query (cache_of p st) with
    | Some v =>
        Some (Ok v,
              with_cache p ((query, v) :: cache_remove query (cache_of p st)) st)
    | None =>
        match f query st with
        | Some (Ok v, st') =>
            Some (Ok v,
                  with_cache p (firstn maxsize ((query, v) :: cache_of p st')) st')
        | other => other
        end
    end.

(** The decorated functions. *)
Definition get_recommendations_omdb (E : env) : str -> M value :=
  lru_cache OMDb (fun query =>
    o <- request E (Get (JStr (omdb_url E query))) ;;
    Monad.of_result (omdb_result E o)).

Definition get_recommendations_tmdb (E : env) : str -> M value :=
  lru_cache TMDb (fun query =>
    o <- request E (Get (JStr (tmdb_url E query))) ;;
    Monad.of_result (tmdb_result E o)).

Definition get_recommendations_books (E : env) : str -> M value :=
  lru_cache Books (fun query =>
    o <- request E (Get (JStr (books_url E query))) ;;
    Monad.of_result (books_result E o)).

Definition get_mistral_response (E : env) (prompt : str) : M str :=
  o <- request E (Post mistral_url prompt) ;;
  Monad.of_result (mistral_result o).

(** ** The message handler (bot.py, lines 175-229) *)

Definition keyword : str := Eval vm_compute in utf8 "рекомендации".
Definition ask_for_query : str :=
  Eval vm_compute in utf8 "Пожалуйста, укажите, что вы хотите найти (например, рекомендации фильмы).".
Definition omdb_header : str := Eval vm_compute in utf8 "Рекомендации с OMDb API:".
Definition tmdb_header : str := Eval vm_compute in utf8 "Рекомендации с TMDb API:".
Definition books_header : str := Eval vm_compute in utf8 "Рекомендации с Google Books API:".

(** [f"{header}\n{recommendations}\n\n"] *)
Definition block (header recommendations : str) : str :=
  header ++ [nl] ++ recommendations ++ [nl; nl].

(** One of the three [if recommendations_...:] statements, lines 190-198. *)
Definition add_block (header : str) (found : value) (reply : value) : value :=
  if truthy (fst found)
  then (fst reply ++ block header (fst found), snd reply ++ snd found)
  else reply.

(** Lines 187-198: the reply text and the media, from what the three
    searches returned. *)
Definition aggregate (omdb tmdb books : value) : value :=
  add_block books_header books
    (add_block tmdb_header tmdb
       (add_block omdb_header omdb ([], []))).

(** Lines 183-198: the three searches and their aggregation. *)
Definition recommend (E : env) (query : str) : M value :=
  omdb <- get_recommendations_omdb E query ;;
  tmdb <- get_recommendations_tmdb E query ;;
  books <- get_recommendations_books E query ;;
  Monad.ret (aggregate omdb tmdb books).

(** [for part in parts: reply_text(part)] *)
Fixpoint reply_parts (parts : list str) : M unit :=
  match parts with
  | [] => Monad.ret tt
  | part :: rest => reply_text part ;; reply_parts rest
  end.

(** [f"Не удалось отправить постер: {caption}. Попробуйте снова позже."] *)
Definition poster_failed (caption : str) : str :=
  utf8 "Не удалось отправить постер: " ++ caption
  ++ utf8 ". Попробуйте снова позже.".

(** Lines 206-222: every exception of the [try] ends in the same reply.
    The exceptions modelled are those of the request; a failure of
    [reply_photo] itself, which the [except Exception] clause answers in the
    same way, is not, sending to the chat being taken to succeed. *)
Fixpoint relay (E : env) (media : media_list) : M unit :=
  match media with
  | [] => Monad.ret tt
  | (poster_url, caption) :: rest =>
      o <- request E (Get poster_url) ;;
      match checked o with
      | Ok response => reply_photo (content response) caption
      | Raise _ => reply_text (poster_failed caption)
      end ;;
      relay E rest
  end.

(** Lines 200-224. *)
Definition deliver (E : env) (fuel : nat) (reply : value) : M unit :=
  if truthy (fst reply) then
    parts <- Monad.of_option (split_message fuel (fst reply) default_max_length) ;;
    reply_parts parts ;;
    relay E (snd reply)
  else reply_text not_found.

Definition handle_message (E : env) (fuel : nat) (user_message : str)
    : M unit :=
  if contains (lower E user_message) keyword then
    let query := strip (replace user_message keyword []) in
    if negb (truthy query) then reply_text ask_for_query
    else
      reply <- recommend E query ;;
      deliver E fuel reply
  else
    mistral_response <- get_mistral_response E user_message ;;
    parts <- Monad.of_option
               (split_message fuel mistral_response default_max_length) ;;
    reply_parts parts.

#[local] Close Scope monad_scope.

(** ** Notions used by the properties *)

(** The outcomes of a request that the [except] clause of a search function
    turns into the error text: no response, a status that
    [raise_for_status] raises on, or a body that is not JSON. *)
Definition request_failed (o : http_outcome) : bool :=
  match o with
  | Failed => true
  | Answered r =>
      ((400 <=? status_code r) && (status_code r <? 600))
      || match json_body r with None => true | Some _ => false end
  end.

(** What a search function returns or raises for an outcome of its request. *)
Definition search_result (p : provider) : env -> http_outcome -> result value :=
  match p with
  | OMDb => omdb_result
  | TMDb => tmdb_result
  | Books => books_result
  end.

(** The decorated search function of [p], and the URL it requests. *)
Definition get_recommendations (p : provider) : env -> str -> M value :=
  match p with
  | OMDb => get_recommendations_omdb
  | TMDb => get_recommendations_tmdb
  | Books => get_recommendations_books
  end.

Definition search_url (p : provider) : env -> str -> str :=
  match p with
  | OMDb => omdb_url
  | TMDb => tmdb_url
  | Books => books_url
  end.

(** What a computation returned or raised, without the state. *)
Definition outcome_of {A : Type} (r : option (result A * state)) : option (result A) :=
  option_map fst r.

(** [v] is a value the search function of [p] can return. *)
Definition returned_by (E : env) (p : provider) (v : value) : Prop :=
  exists o, search_result p E o = Ok v.

(** The memos hold only values their functions returned. *)
Definition caches_sound (E : env) (st : state) : Prop :=
  forall p, Forall (fun entry => returned_by E p (snd entry)) (cache_of p st).

(** The invariant of the three [for] loops: no line written so far is
    empty, and there is no media without a line. *)
Definition lines_ok (acc : list str * media_list) : Prop :=
  Forall (fun line => line <> []) (fst acc) /\ (fst acc = [] -> snd acc = []).

(** The blocks of the reply text: header and body of every search whose
    body is not empty, in the order OMDb, TMDb, Google Books. *)
Definition blocks (omdb tmdb books : value) : list (str * str) :=
  filter (fun b => truthy (snd b))
    [(omdb_header, fst omdb); (tmdb_header, fst tmdb); (books_header, fst books)].

(** The number of blocks under [header]. *)
Definition header_count (header : str) (bs : list (str * str)) : nat :=
  length (filter (fun b => Str.eqb (fst b) header) bs).

(** [s.split('\n')]: the lines of a text. *)
Fixpoint split_lines (s : str) : list str :=
  match s with
  | [] => [[]]
  | c :: s' =>
      if N.eqb c nl then [] :: split_lines s'
      else
        match split_lines s' with
        | line :: rest => (c :: line) :: rest
        | [] => [[c]]
        end
  end.

(** The number of lines of [s] that are [line]. *)
Definition line_count (line : str) (s : str) : nat :=
  length (filter (Str.eqb line) (split_lines s)).

(** The states the process goes through: the one it starts in, and those
    the handler leaves when it has returned or raised. *)
Inductive reachable (E : env) : state -> Prop :=
| reachable_start : reachable E initial_state
| reachable_step (st st' : state) (fuel : nat) (user_message : str)
    (r : result unit) :
    reachable E st ->
    handle_message E fuel user_message st = Some (r, st') ->
    reachable E st'.

(** A computation that only adds events to the trace. *)
Definition extends_trace {A : Type} (m : M A) : Prop :=
  forall st r st', m st = Some (r, st') ->
                   exists added, trace st' = trace st ++ added.

(** A computation that leaves the memos as they are. *)
Definition keeps_caches {A : Type} (m : M A) : Prop :=
  forall st r st', m st = Some (r, st') ->
                   forall p, cache_of p st' = cache_of p st.

(** ** A concrete world, to run the handler in *)

Module Demo.

(** [str.lower] on the capital letters of Basic Latin and of the Cyrillic
    block; other characters are left as they are. *)
Definition lower_char (c : char) : char :=
  if ((65 <=? c) && (c <=? 90))%N then (c + 32)%N
  else if ((1040 <=? c) && (c <=? 1071))%N then (c + 32)%N
  else if ((1024 <=? c) && (c <=? 1039))%N then (c + 80)%N
  else c.

(** A world whose network answers every request with [answer]. *)
Definition world (answer : http_outcome) : env :=
  {| lower := map lower_char;
     py_repr := fun _ => utf8 "[...]";
     OMDB_API_KEY := utf8 "omdb-key";
     TMDB_API_KEY := utf8 "tmdb-key";
     GOOGLE_BOOKS_API_KEY := utf8 "books-key";
     MISTRAL_API_KEY := utf8 "mistral-key";
     network := fun _ => answer |}.

Definition offline : env := world Failed.

Definition answer (status : Z) (data : json) : http_outcome :=
  Answered {| status_code := status; content := []; json_body := Some data |}.

(** A TMDb item: a series called Foo, first aired on 2020-05-01. *)
Definition foo_series : json :=
  JObj [(utf8 "media_type", JStr (utf8 "tv"));
        (utf8 "name", JStr (utf8 "Foo"));
        (utf8 "first_air_date", JStr (utf8 "2020-05-01"))].

(** A TMDb item that is neither a film nor a series. *)
Definition a_person : json :=
  JObj [(utf8 "media_type", JStr (utf8 "person"));
        (utf8 "name", JStr (utf8 "Foo"))].

(** An OMDb body with one film. *)
Definition foo_film : json :=
  JObj [(utf8 "Response", JStr (utf8 "True"));
        (utf8 "Search",
         JArr [JObj [(utf8 "Title", JStr (utf8 "Foo"));
                     (utf8 "Year", JStr (utf8 "2020"))]])].

(** A message with the keyword capitalised, and its lower case. *)
Definition capital_request : str := Eval vm_compute in utf8 "Рекомендации фильмы".
Definition lowered_request : str := Eval vm_compute in utf8 "рекомендации фильмы".

(** The number of requests among the events. *)
Definition requests_made (t : list event) : nat :=
  length (filter (fun ev => match ev with
                            | Get _ | Post _ _ => true
                            | _ => false
                            end) t).

(** A world whose network answers the first request with the first of
    [answers], the second with the second, and so on; no response once they
    are used up. *)
Definition scripted (answers : list http_outcome) : env :=
  {| lower := map lower_char;
     py_repr := fun _ => utf8 "[...]";
     OMDB_API_KEY := utf8 "omdb-key";
     TMDB_API_KEY := utf8 "tmdb-key";
     GOOGLE_BOOKS_API_KEY := utf8 "books-key";
     MISTRAL_API_KEY := utf8 "mistral-key";
     network := fun t => nth (pred (requests_made t)) answers Failed |}.

(** An OMDb body with one film, whose title runs over three lines, the
    second being the header of the TMDb block. *)
Definition odd_film : json :=
  JObj [(utf8 "Response", JStr (utf8 "True"));
        (utf8 "Search",
         JArr [JObj [(utf8 "Title",
                      JStr (utf8 "A" ++ [nl] ++ tmdb_header ++ [nl] ++ utf8 "B"));
                     (utf8 "Year", JStr (utf8 "2020"))]])].

(** A TMDb body with the series Foo. *)
Definition foo_series_found : json :=
  JObj [(utf8 "results", JArr [foo_series])].

End Demo.

Example utf8_ascii : utf8 "Foo (2020)" = [70; 111; 111; 32; 40; 50; 48; 50; 48; 41]%N.
Proof. reflexivity. Qed.

Example utf8_cyrillic : utf8 "Сериал:" = [1057; 1077; 1088; 1080; 1072; 1083; 58]%N.
Proof. reflexivity. Qed.

Example split_message_newline_first : split_message 50 (nl :: utf8 "ab") 2 = None.
Proof. reflexivity. Qed.

Example split_message_negative_length : split_message 50 (utf8 "abcdefg") (-2) = None.
Proof. reflexivity. Qed.

(** * Properties *)

(** ** Strings *)

Lemma len_nonneg (s : str) : 0 <= len s.
Proof. unfold len. lia. Qed.

Lemma len_cons (c : char) (s : str) : len (c :: s) = 1 + len s.
Proof. unfold len. simpl length. lia. Qed.

Lemma len_app (s t : str) : len (s ++ t) = len s + len t.
Proof. unfold len. rewrite length_app. lia. Qed.

Lemma truthy_false (s : str) : truthy s = false <-> s = [].
Proof. destruct s; simpl; split; congruence. Qed.

Lemma truthy_true (s : str) : truthy s = true <-> s <> [].
Proof. destruct s; simpl; split; congruence. Qed.

Lemma to_nat_len (s : str) : Z.to_nat (len s) = length s.
Proof. unfold len. lia. Qed.

Lemma in_firstn {A : Type} (n : nat) (l : list A) (x : A) :
  In x (firstn n l) -> In x l.
Proof.
  revert l. induction n as [|n IH]; intros [|y l]; simpl; try tauto.
  intros [->|H]; auto.
Qed.

Lemma firstn_length_self {A : Type} (n : nat) (l : list A) :
  firstn (length (firstn n l)) l = firstn n l.
Proof.
  rewrite length_firstn.
  destruct (Nat.le_gt_cases n (length l)) as [H|H].
  - now rewrite Nat.min_l.
  - rewrite Nat.min_r by lia. rewrite !firstn_all2; (reflexivity || lia).
Qed.

(** [rfind] answers [-1] or an index of the string. *)
Lemma rfind_range (s : str) (c : char) :
  rfind s c = -1 \/ 0 <= rfind s c < len s.
Proof.
  induction s as [|d s IH]; simpl; [now left|].
  rewrite len_cons. pose proof (len_nonneg s).
  destruct (Z.eqb_spec (rfind s c) (-1)) as [E|E].
  - destruct (N.eqb d c); [right|left]; lia.
  - right. lia.
Qed.

Lemma rfind_absent (s : str) (c : char) :
  (forall d, In d s -> d <> c) -> rfind s c = -1.
Proof.
  induction s as [|d s IH]; simpl; intros H; [reflexivity|].
  rewrite IH by auto. simpl.
  destruct (N.eqb_spec d c) as [->|_]; [|reflexivity].
  exfalso. apply (H c); auto.
Qed.

Lemma slice_to_nonneg (s : str) (k : Z) :
  0 <= k -> slice_to s k = firstn (Z.to_nat k) s.
Proof. intros H. unfold slice_to. destruct (Z.ltb_spec k 0); [lia|reflexivity]. Qed.

Lemma len_slice_to_le (s : str) (k : Z) : 0 <= k -> len (slice_to s k) <= k.
Proof.
  intros H. rewrite slice_to_nonneg by assumption. unfold len.
  pose proof (firstn_le_length (Z.to_nat k) s). lia.
Qed.

Lemma length_slice_to_le (s : str) (k : Z) :
  (length (slice_to s k) <= length s)%nat.
Proof.
  unfold slice_to. destruct (k <? 0); rewrite length_firstn; lia.
Qed.

(** ** The paginator *)

Section Paginator.

Variable max_length : Z.

Lemma split_message_loop_step (fuel : nat) (parts : list str) (message : str) :
  message <> [] -> max_length < len message ->
  split_message_loop (S fuel) parts message max_length
  = split_message_loop fuel (parts ++ [cut max_length message])
      (slice_from message (len (cut max_length message))) max_length.
Proof.
  intros Hm Hl. simpl.
  apply truthy_true in Hm. rewrite Hm. simpl.
  destruct (Z.leb_spec (len message) max_length); [lia|]. reflexivity.
Qed.

Lemma split_message_loop_last (fuel : nat) (parts : list str) (message : str) :
  message <> [] -> len message <= max_length ->
  split_message_loop (S fuel) parts message max_length = Some (parts ++ [message]).
Proof.
  intros Hm Hl. simpl.
  apply truthy_true in Hm. rewrite Hm. simpl.
  destruct (Z.leb_spec (len message) max_length); [reflexivity|lia].
Qed.

Lemma split_message_loop_empty (fuel : nat) (parts : list str) :
  split_message_loop (S fuel) parts [] max_length = Some parts.
Proof. reflexivity. Qed.

(** More fuel does not change what the loop returns. *)
Lemma split_message_loop_more (fuel : nat) :
  forall parts message r,
    split_message_loop fuel parts message max_length = Some r ->
    split_message_loop (S fuel) parts message max_length = Some r.
Proof.
  induction fuel as [|fuel IH]; intros parts message r H; [discriminate|].
  destruct message as [|c message]; [exact H|].
  destruct (Z.leb_spec (len (c :: message)) max_length) as [Hl|Hl].
  - rewrite split_message_loop_last in * by (congruence || lia). exact H.
  - rewrite split_message_loop_step in H by (congruence || lia).
    rewrite split_message_loop_step by (congruence || lia).
    apply IH. exact H.
Qed.

Lemma split_message_loop_mono (fuel fuel' : nat) parts message r :
  (fuel <= fuel')%nat ->
  split_message_loop fuel parts message max_length = Some r ->
  split_message_loop fuel' parts message max_length = Some r.
Proof.
  induction 1 as [|n _ IH]; intros H; [exact H|].
  apply split_message_loop_more. auto.
Qed.

Lemma len_cut_le (message : str) : 0 <= max_length -> len (cut max_length message) <= max_length.
Proof.
  intros H. unfold cut.
  pose proof (len_slice_to_le message max_length H) as Hp.
  destruct (rfind_range (slice_to message max_length) nl) as [E|E].
  - rewrite E. simpl. exact Hp.
  - destruct (Z.eqb_spec (rfind (slice_to message max_length) nl) (-1)); [lia|].
    simpl. pose proof (len_slice_to_le (slice_to message max_length) _ (proj1 E)). lia.
Qed.

(** With a negative [max_length] a cut never takes the whole message. *)
Lemma length_cut_lt (message : str) :
  max_length < 0 -> message <> [] -> (length (cut max_length message) < length message)%nat.
Proof.
  intros H Hm. unfold cut.
  assert (Hp : (length (slice_to message max_length) < length message)%nat).
  { unfold slice_to. destruct (Z.ltb_spec max_length 0); [|lia].
    rewrite length_firstn. unfold len.
    destruct message; [congruence|]. simpl length. lia. }
  destruct (negb _); [|exact Hp].
  pose proof (length_slice_to_le (slice_to message max_length)
                (rfind (slice_to message max_length) nl)). lia.
Qed.

Lemma split_message_loop_negative (fuel : nat) :
  forall parts message,
    max_length < 0 -> message <> [] ->
    split_message_loop fuel parts message max_length = None.
Proof.
  induction fuel as [|fuel IH]; intros parts message H Hm; [reflexivity|].
  pose proof (len_nonneg message).
  rewrite split_message_loop_step by (assumption || lia).
  apply IH; [assumption|].
  unfold slice_from. rewrite to_nat_len.
  pose proof (length_cut_lt message H Hm) as Hlt.
  intros E. apply (f_equal (@length _)) in E.
  rewrite length_skipn in E. simpl in E. lia.
Qed.

Lemma split_message_loop_bound (fuel : nat) :
  forall parts message r,
    0 <= max_length ->
    Forall (fun p => len p <= max_length) parts ->
    split_message_loop fuel parts message max_length = Some r ->
    Forall (fun p => len p <= max_length) r.
Proof.
  induction fuel as [|fuel IH]; intros parts message r H0 Hp H; [discriminate|].
  destruct message as [|c message].
  - simpl in H. congruence.
  - destruct (Z.leb_spec (len (c :: message)) max_length) as [Hl|Hl].
    + rewrite split_message_loop_last in H by (congruence || lia).
      injection H as <-. apply Forall_app. split; [exact Hp|].
      constructor; [exact Hl|constructor].
    + rewrite split_message_loop_step in H by (congruence || lia).
      apply IH in H; [exact H|exact H0|].
      apply Forall_app. split; [exact Hp|].
      constructor; [apply len_cut_le; exact H0|constructor].
Qed.

Lemma cut_prefix (message : str) : exists n, cut max_length message = firstn n message.
Proof.
  unfold cut, slice_to.
  destruct (negb _); repeat (destruct (_ <? 0));
    rewrite ?firstn_firstn; eexists; reflexivity.
Qed.

(** The loop keeps the text: the parts and the rest of the message always
    concatenate to the parts and the message of the start. *)
Lemma split_message_loop_concat (fuel : nat) :
  forall parts message r,
    split_message_loop fuel parts message max_length = Some r ->
    concat r = concat parts ++ message.
Proof.
  induction fuel as [|fuel IH]; intros parts message r H; [discriminate|].
  destruct message as [|c message].
  - simpl in H. injection H as <-. now rewrite app_nil_r.
  - destruct (Z.leb_spec (len (c :: message)) max_length) as [Hl|Hl].
    + rewrite split_message_loop_last in H by (congruence || lia).
      injection H as <-. rewrite concat_app. simpl. now rewrite app_nil_r.
    + rewrite split_message_loop_step in H by (congruence || lia).
      apply IH in H. rewrite H, concat_app. simpl. rewrite app_nil_r, <- app_assoc.
      f_equal. unfold slice_from. rewrite to_nat_len.
      set (m := c :: message).
      destruct (cut_prefix m) as [n Hc].
      rewrite Hc. rewrite <- (firstn_length_self n m) at 1. apply firstn_skipn.
Qed.

End Paginator.

Lemma split_message_returns_unique (message : str) (max_length : Z) (r r' : list str) :
  split_message_returns message max_length r ->
  split_message_returns message max_length r' -> r = r'.
Proof.
  intros [n Hn] [n' Hn']. unfold split_message in *.
  apply (split_message_loop_mono max_length n (Nat.max n n')) in Hn; [|lia].
  apply (split_message_loop_mono max_length n' (Nat.max n n')) in Hn'; [|lia].
  congruence.
Qed.

(** The empty text gives no chunk, and a text that fits gives itself. *)
Lemma split_message_empty (max_length : Z) : split_message_returns [] max_length [].
Proof. exists 1%nat. reflexivity. Qed.

Lemma split_message_short (message : str) (max_length : Z) :
  message <> [] -> len message <= max_length ->
  split_message_returns message max_length [message].
Proof.
  intros Hm Hl. exists 1%nat. unfold split_message.
  now rewrite split_message_loop_last.
Qed.

(** Whatever the loop returns concatenates to the message. *)
Lemma split_message_concat (message : str) (max_length : Z) (parts : list str) :
  split_message_returns message max_length parts -> concat parts = message.
Proof. intros [fuel H]. apply split_message_loop_concat in H. exact H. Qed.

(** Without a line feed in the window, the cut is the window. *)
Lemma cut_without_newline (max_length : Z) (message : str) :
  (forall c, In c message -> c <> nl) ->
  cut max_length message = slice_to message max_length.
Proof.
  intros H. unfold cut. rewrite rfind_absent; [reflexivity|].
  intros d Hd. apply H. unfold slice_to in Hd.
  destruct (max_length <? 0); eapply in_firstn; exact Hd.
Qed.

Lemma in_skipn {A : Type} (n : nat) (l : list A) (x : A) :
  In x (skipn n l) -> In x l.
Proof.
  intros H. rewrite <- (firstn_skipn n l). apply in_or_app. now right.
Qed.

(** A text without line feeds is cut into windows of [max_length]
    characters; the loop returns after as many iterations as there are
    windows. *)
Lemma split_message_loop_without_newline (max_length : Z) (fuel : nat) :
  forall parts message,
    0 < max_length ->
    (forall c, In c message -> c <> nl) ->
    len message <= Z.of_nat fuel * max_length ->
    exists r, split_message_loop (S fuel) parts message max_length = Some r.
Proof.
  induction fuel as [|fuel IH]; intros parts message Hk Hn Hl.
  - destruct message as [|c message]; [eexists; reflexivity|].
    pose proof (len_nonneg message). rewrite len_cons in Hl. lia.
  - destruct message as [|c message]; [eexists; reflexivity|].
    destruct (Z.leb_spec (len (c :: message)) max_length) as [Hs|Hs].
    + eexists. apply split_message_loop_last; (congruence || lia).
    + rewrite split_message_loop_step by (congruence || lia).
      rewrite cut_without_newline by exact Hn.
      apply IH; [exact Hk| |].
      * intros d Hd. apply Hn. unfold slice_from in Hd. eapply in_skipn. exact Hd.
      * unfold slice_from. rewrite to_nat_len, slice_to_nonneg by lia.
        unfold len in *. rewrite length_skipn, length_firstn.
        rewrite Nat2Z.inj_succ, Z.mul_succ_l in Hl. lia.
Qed.

Lemma split_message_total_without_newline (message : str) (max_length : Z) :
  0 < max_length ->
  (forall c, In c message -> c <> nl) ->
  exists parts, split_message_returns message max_length parts.
Proof.
  intros Hk Hn.
  destruct (split_message_loop_without_newline max_length (length message) [] message Hk Hn)
    as [r Hr].
  - unfold len. nia.
  - exists r, (S (length message)). exact Hr.
Qed.

(** A message that starts with a line feed, is longer than [max_length] and
    has no other line feed in its first window is cut at index 0: the part
    is empty and the message stays what it was. *)
Lemma cut_at_leading_newline (max_length : Z) (rest : str) :
  0 < max_length ->
  (forall c, In c (firstn (Z.to_nat (max_length - 1)) rest) -> c <> nl) ->
  cut max_length (nl :: rest) = [].
Proof.
  intros Hk Hn. unfold cut.
  rewrite slice_to_nonneg by lia.
  replace (Z.to_nat max_length) with (S (Z.to_nat (max_length - 1))) by lia.
  rewrite firstn_cons. cbn [rfind].
  rewrite rfind_absent by exact Hn.
  reflexivity.
Qed.

Lemma split_message_loop_stuck (max_length : Z) (rest : str) (fuel : nat) :
  forall parts,
    0 < max_length -> max_length <= len rest ->
    (forall c, In c (firstn (Z.to_nat (max_length - 1)) rest) -> c <> nl) ->
    split_message_loop fuel parts (nl :: rest) max_length = None.
Proof.
  induction fuel as [|fuel IH]; intros parts Hk Hl Hn; [reflexivity|].
  rewrite split_message_loop_step by (congruence || rewrite len_cons; lia).
  rewrite cut_at_leading_newline by assumption.
  apply IH; assumption.
Qed.

(** A text that starts with a line feed, is longer than [max_length] and has
    no other line feed in its first window is never returned. *)
Lemma split_message_stuck (max_length : Z) (rest : str) :
  0 < max_length -> max_length <= len rest ->
  (forall c, In c (firstn (Z.to_nat (max_length - 1)) rest) -> c <> nl) ->
  split_message_diverges (nl :: rest) max_length.
Proof. intros Hk Hl Hn fuel. now apply split_message_loop_stuck. Qed.

(** *** The claims about the paginator *)

(** C1.  The paginator is not total.  With the default [max_length] of 4096,
    on the text made of the line ["ab"], a line feed and 4096 times ["c"],
    the first iteration cuts ["ab"] at the line feed; the rest starts with
    that line feed and has no other in its window, so every later iteration
    appends an empty part and leaves the message as it is: the call returns
    for no number of iterations. *)
Theorem split_message_not_total :
  split_message_diverges (utf8 "ab" ++ nl :: repeat 99%N 4096) default_max_length.
Proof.
  intros [|fuel]; [reflexivity|].
  unfold split_message.
  rewrite split_message_loop_step; [| discriminate | vm_compute; reflexivity].
  replace (cut default_max_length (utf8 "ab" ++ nl :: repeat 99%N 4096))
    with (utf8 "ab") by (vm_compute; reflexivity).
  change (slice_from (utf8 "ab" ++ nl :: repeat 99%N 4096) (len (utf8 "ab")))
    with (nl :: repeat 99%N 4096).
  apply split_message_loop_stuck.
  - reflexivity.
  - unfold len. rewrite repeat_length. vm_compute. discriminate.
  - intros c Hc. apply in_firstn in Hc. apply repeat_spec in Hc. subst c. discriminate.
Qed.

Lemma split_message_three_lines_run :
  split_message 3 (utf8 "abcde" ++ [nl] ++ utf8 "fghij" ++ [nl] ++ utf8 "klmno") 10
  = Some [utf8 "abcde"; nl :: utf8 "fghij"; nl :: utf8 "klmno"].
Proof. reflexivity. Qed.

(** C3.  With [max_length] 10 the text ["abcde\nfghij\nklmno"] is cut before
    each line feed: the chunks are ["abcde"], ["\nfghij"] and ["\nklmno"],
    the second and the third starting with the line feed they were cut at. *)
Theorem split_message_three_lines :
  split_message_returns
    (utf8 "abcde" ++ [nl] ++ utf8 "fghij" ++ [nl] ++ utf8 "klmno") 10
    [utf8 "abcde"; nl :: utf8 "fghij"; nl :: utf8 "klmno"].
Proof. exists 3%nat. exact split_message_three_lines_run. Qed.

(** C3, as the specification has it, fails: the chunks are not ["abcde"],
    ["fghij"], ["klmno"]. *)
Lemma split_message_three_lines_keeps_newlines :
  ~ split_message_returns
      (utf8 "abcde" ++ [nl] ++ utf8 "fghij" ++ [nl] ++ utf8 "klmno") 10
      [utf8 "abcde"; utf8 "fghij"; utf8 "klmno"].
Proof.
  intros H.
  assert (E : [utf8 "abcde"; utf8 "fghij"; utf8 "klmno"]
              = [utf8 "abcde"; nl :: utf8 "fghij"; nl :: utf8 "klmno"]).
  { eapply split_message_returns_unique; [exact H|].
    exists 3%nat. exact split_message_three_lines_run. }
  discriminate E.
Qed.

(** C4.  A text of 10,000 characters without a line feed is returned, with
    the default [max_length] of 4096, as exactly three chunks of at most 4096
    characters each, whose concatenation is the text. *)
Theorem split_message_ten_thousand (text : str) :
  len text = 10000 ->
  (forall c, In c text -> c <> nl) ->
  exists parts,
    split_message_returns text 4096 parts /\
    length parts = 3%nat /\
    Forall (fun part => len part <= 4096) parts /\
    concat parts = text.
Proof.
  intros Hl Hn.
  set (a := slice_to text 4096).
  set (rest := slice_from text (len a)).
  set (b := slice_to rest 4096).
  set (c := slice_from rest (len b)).
  assert (Ha : len a = 4096).
  { unfold a. rewrite slice_to_nonneg by lia. unfold len in *. rewrite length_firstn. lia. }
  assert (Hrest : len rest = 5904).
  { unfold rest, slice_from. rewrite Ha. unfold len in *. rewrite length_skipn. lia. }
  assert (Hb : len b = 4096).
  { unfold b. rewrite slice_to_nonneg by lia. unfold len in *. rewrite length_firstn. lia. }
  assert (Hc : len c = 1808).
  { unfold c, slice_from. rewrite Hb. unfold len in *. rewrite length_skipn. lia. }
  assert (Hnrest : forall d, In d rest -> d <> nl).
  { intros d Hd. apply Hn. unfold rest, slice_from in Hd. eapply in_skipn. exact Hd. }
  assert (Hret : split_message_returns text 4096 [a; b; c]).
  { exists 3%nat. unfold split_message.
    rewrite split_message_loop_step by (try lia; intros ->; discriminate Hl).
    rewrite cut_without_newline by exact Hn. fold a. fold rest.
    rewrite split_message_loop_step by (try lia; intros E; rewrite E in Hrest; discriminate Hrest).
    rewrite cut_without_newline by exact Hnrest. fold b. fold c.
    rewrite split_message_loop_last by (try lia; intros E; rewrite E in Hc; discriminate Hc).
    reflexivity. }
  exists [a; b; c]. split; [exact Hret|]. split; [reflexivity|]. split.
  - repeat constructor; lia.
  - apply split_message_concat with (max_length := 4096). exact Hret.
Qed.

Lemma split_message_ten_thousand_witness :
  exists parts,
    split_message_returns (repeat 97%N (Z.to_nat 10000)) 4096 parts /\
    length parts = 3%nat /\
    Forall (fun part => len part <= 4096) parts /\
    concat parts = repeat 97%N (Z.to_nat 10000).
Proof.
  apply split_message_ten_thousand.
  - vm_compute. reflexivity.
  - intros c Hc. apply repeat_spec in Hc. subst c. discriminate.
Defined.

(** C8.  Every chunk of the sequence the paginator returns has at most
    [max_length] characters, for every text and every [max_length]. *)
Theorem split_message_chunks_bounded (message : str) (max_length : Z)
    (parts : list str) :
  split_message_returns message max_length parts ->
  Forall (fun part => len part <= max_length) parts.
Proof.
  intros [fuel H]. unfold split_message in H.
  destruct (Z.ltb_spec max_length 0) as [Hneg|Hpos].
  - destruct message as [|c message].
    + destruct fuel; [discriminate|]. simpl in H. injection H as <-. constructor.
    + rewrite split_message_loop_negative in H by (assumption || discriminate).
      discriminate.
  - eapply split_message_loop_bound; [exact Hpos| |exact H]. constructor.
Qed.

Lemma split_message_chunks_bounded_witness :
  Forall (fun part => len part <= 10)
    [utf8 "abcde"; nl :: utf8 "fghij"; nl :: utf8 "klmno"].
Proof.
  apply (split_message_chunks_bounded
           (utf8 "abcde" ++ [nl] ++ utf8 "fghij" ++ [nl] ++ utf8 "klmno") 10).
  exists 3%nat. reflexivity.
Defined.

(** ** The search functions *)

Lemma bind_ok {A B : Type} (r : result A) (k : A -> result B) (b : B) :
  Res.bind r k = Ok b -> exists a, r = Ok a /\ k a = Ok b.
Proof. destruct r as [a|e]; simpl; [eauto|discriminate]. Qed.

(** [inv_bind H] opens the first step of a successful computation [H]. *)
Ltac inv_bind H :=
  let x := fresh "x" in
  let Hx := fresh "Hx" in
  apply bind_ok in H; destruct H as (x & Hx & H).

Lemma except_request_exception_ok (r : result value) (v : value) :
  except_request_exception r = Ok v ->
  r = Ok v \/ v = (fetch_error, []).
Proof.
  destruct r as [a|e]; simpl; [auto|].
  destruct (is_request_exception e); [|discriminate].
  intros H. injection H as <-. now right.
Qed.

(** A request that fails is answered with the error text. *)
Lemma search_result_failed (E : env) (p : provider) (o : http_outcome) :
  request_failed o = true -> search_result p E o = Ok (fetch_error, []).
Proof.
  intros H. destruct o as [|r]; [destruct p; reflexivity|].
  simpl in H.
  destruct p; simpl;
    unfold omdb_result, omdb_try, tmdb_result, tmdb_try, books_result, books_try;
    simpl; unfold raise_for_status;
    destruct ((400 <=? status_code r) && (status_code r <? 600)); simpl;
    try reflexivity;
    unfold response_json; destruct (json_body r); simpl;
    (reflexivity || discriminate).
Qed.

(** A call that misses the memo makes one request and stores what the
    function returns for the outcome. *)
Lemma get_recommendations_miss (E : env) (p : provider) (query : str) (st : state) :
  cache_find query (cache_of p st) = None ->
  let sent := trace st ++ [Get (JStr (search_url p E query))] in
  get_recommendations p E query st
  = match search_result p E (network E sent) with
    | Ok v =>
        Some (Ok v,
              with_cache p (firstn maxsize ((query, v) :: cache_of p st))
                (with_trace sent st))
    | Raise e => Some (Raise e, with_trace sent st)
    end.
Proof.
  intros Hmiss sent. subst sent.
  destruct p; cbn [get_recommendations search_result search_url];
    unfold get_recommendations_omdb, get_recommendations_tmdb,
      get_recommendations_books, lru_cache;
    rewrite Hmiss;
    unfold request, Monad.bind, Monad.emit, Monad.of_result;
    cbn [trace with_trace];
    match goal with
    | |- context [?f E (network E ?t)] => destruct (f E (network E t))
    end; reflexivity.
Qed.

(** A call that hits the memo makes no request. *)
Lemma get_recommendations_hit (E : env) (p : provider) (query : str) (st : state)
    (v : value) :
  cache_find query (cache_of p st) = Some v ->
  get_recommendations p E query st
  = Some (Ok v, with_cache p ((query, v) :: cache_remove query (cache_of p st)) st).
Proof.
  intros Hhit.
  destruct p; cbn [get_recommendations];
    unfold get_recommendations_omdb, get_recommendations_tmdb,
      get_recommendations_books, lru_cache;
    rewrite Hhit; reflexivity.
Qed.

(** *** The claims about the search functions *)

(** C2, amended.  Each of the three search functions, when its request gets
    no response, gets a status from 400 to 599, or gets a body that is not
    JSON, returns the pair of the error text and the empty media list: it
    raises nothing, and the pair is what the memo then holds for the query. *)
Theorem search_failure_is_caught (E : env) (p : provider) (query : str) (st : state) :
  cache_find query (cache_of p st) = None ->
  request_failed (network E (trace st ++ [Get (JStr (search_url p E query))])) = true ->
  get_recommendations p E query st
  = Some (Ok (fetch_error, []),
          with_cache p (firstn maxsize ((query, (fetch_error, [])) :: cache_of p st))
            (with_trace (trace st ++ [Get (JStr (search_url p E query))]) st)).
Proof.
  intros Hmiss Hfail.
  rewrite get_recommendations_miss by exact Hmiss.
  cbv zeta. rewrite search_result_failed by exact Hfail. reflexivity.
Qed.

Lemma search_failure_is_caught_witness :
  get_recommendations OMDb Demo.offline (utf8 "foo") initial_state
  = Some (Ok (fetch_error, []),
          with_cache OMDb
            (firstn maxsize ((utf8 "foo", (fetch_error, [])) :: cache_of OMDb initial_state))
            (with_trace
               (trace initial_state ++ [Get (JStr (search_url OMDb Demo.offline (utf8 "foo")))])
               initial_state)).
Proof.
  apply (search_failure_is_caught Demo.offline OMDb (utf8 "foo") initial_state);
    reflexivity.
Defined.

(** C2, as the specification has it, fails twice.  A status that is not 2xx
    is not always an error for [raise_for_status]: under status 300 a body
    with a film is listed as under status 200.  And a body that is JSON but
    not an object makes [data.get] raise [AttributeError], which the
    [except] clause does not catch. *)
Lemma search_failure_not_always_caught :
  outcome_of (get_recommendations_omdb (Demo.world (Demo.answer 300 Demo.foo_film))
                (utf8 "foo") initial_state)
  = Some (Ok (utf8 "Foo (2020)", []))
  /\ outcome_of (get_recommendations_omdb (Demo.world (Demo.answer 200 (JArr [])))
                   (utf8 "foo") initial_state)
     = Some (Raise AttributeError).
Proof. split; reflexivity. Qed.

(** C7, amended.  For the TMDb item with [media_type] "tv", [name] "Foo" and
    [first_air_date] "2020-05-01" the loop writes the line made of the label
    of a series, the name and the year before the first [-]:
    "Сериал: Foo (2020)". *)
Theorem tmdb_series_line (E : env) :
  tmdb_items E [Demo.foo_series] [] [] = Ok ([utf8 "Сериал: Foo (2020)"], []).
Proof. reflexivity. Qed.

(** C7, as the specification has it, fails: the label is not "Series:". *)
Lemma tmdb_series_line_not_english :
  tmdb_items Demo.offline [Demo.foo_series] [] [] <> Ok ([utf8 "Series: Foo (2020)"], []).
Proof. discriminate. Qed.

(** *** What the search functions return *)

Lemma app_nonempty_l {A : Type} (s t : list A) : s <> [] -> s ++ t <> [].
Proof. destruct s; simpl; congruence. Qed.

Lemma app_nonempty_r {A : Type} (s t : list A) : t <> [] -> s ++ t <> [].
Proof. destruct s, t; simpl; congruence. Qed.

Lemma lines_ok_start : lines_ok ([], []).
Proof. split; [constructor|reflexivity]. Qed.

(** Writing a line that is not empty, with or without a medium, keeps the
    invariant. *)
Lemma lines_ok_add (recommendations : list str) (media media' : media_list)
    (line : str) :
  lines_ok (recommendations, media) -> line <> [] ->
  lines_ok (recommendations ++ [line], media').
Proof.
  intros [Hl _] Hline. split; simpl.
  - apply Forall_app. split; [exact Hl|]. constructor; [exact Hline|constructor].
  - intros H. apply app_eq_nil in H. destruct H as [_ H]. discriminate H.
Qed.

Lemma omdb_line_nonempty (E : env) (title year : json) : omdb_line E title year <> [].
Proof. unfold omdb_line. apply app_nonempty_r. discriminate. Qed.

Lemma books_line_nonempty (E : env) (title published : json) (authors : str) :
  books_line E title published authors <> [].
Proof. unfold books_line. apply app_nonempty_l. discriminate. Qed.

Lemma tmdb_line_nonempty (E : env) (label : str) (title date : json) (line : str) :
  label <> [] -> tmdb_line E label title date = Ok line -> line <> [].
Proof.
  intros Hl H. unfold tmdb_line in H. inv_bind H. injection H as <-.
  apply app_nonempty_l. exact Hl.
Qed.

Lemma omdb_items_ok (E : env) (results : list json) :
  forall recommendations media found,
    omdb_items E results recommendations media = Ok found ->
    lines_ok (recommendations, media) -> lines_ok found.
Proof.
  induction results as [|item rest IH]; intros recommendations media found H Hok.
  - simpl in H. injection H as <-. exact Hok.
  - simpl in H. inv_bind H. inv_bind H. inv_bind H.
    apply IH in H; [exact H|].
    eapply lines_ok_add; [exact Hok|apply omdb_line_nonempty].
Qed.

Lemma tmdb_item_ok (E : env) (label title_key date_key : str) (item : json)
    (recommendations : list str) (media : media_list) found :
  label <> [] ->
  tmdb_item E label title_key date_key item recommendations media = Ok found ->
  lines_ok (recommendations, media) -> lines_ok found.
Proof.
  intros Hl H Hok. unfold tmdb_item in H.
  inv_bind H. inv_bind H. inv_bind H. inv_bind H.
  match type of H with
  | (if ?b then _ else _) = _ => destruct b
  end.
  - inv_bind H. injection H as <-.
    eapply lines_ok_add; [exact Hok|]. eapply tmdb_line_nonempty; eassumption.
  - injection H as <-.
    eapply lines_ok_add; [exact Hok|]. eapply tmdb_line_nonempty; eassumption.
Qed.

Lemma tmdb_items_ok (E : env) (results : list json) :
  forall recommendations media found,
    tmdb_items E results recommendations media = Ok found ->
    lines_ok (recommendations, media) -> lines_ok found.
Proof.
  induction results as [|item rest IH]; intros recommendations media found H Hok.
  - simpl in H. injection H as <-. exact Hok.
  - simpl in H. inv_bind H. inv_bind H.
    apply IH in H; [exact H|].
    destruct x0 as [recommendations' media']. simpl.
    destruct (Py.eq_str x (utf8 "movie")).
    + eapply tmdb_item_ok; [|exact Hx0|exact Hok]. discriminate.
    + inv_bind Hx0. destruct (Py.eq_str x0 (utf8 "tv")).
      * eapply tmdb_item_ok; [|exact Hx0|exact Hok]. discriminate.
      * injection Hx0 as <- <-. exact Hok.
Qed.

Lemma books_items_ok (E : env) (results : list json) :
  forall recommendations media found,
    books_items E results recommendations media = Ok found ->
    lines_ok (recommendations, media) -> lines_ok found.
Proof.
  induction results as [|item rest IH]; intros recommendations media found H Hok.
  - simpl in H. injection H as <-. exact Hok.
  - simpl in H. do 6 inv_bind H.
    apply IH in H; [exact H|].
    eapply lines_ok_add; [exact Hok|apply books_line_nonempty].
Qed.

(** The books loop writes one line for every item. *)
Lemma books_items_length (E : env) (results : list json) :
  forall recommendations media found,
    books_items E results recommendations media = Ok found ->
    length (fst found) = (length recommendations + length results)%nat.
Proof.
  induction results as [|item rest IH]; intros recommendations media found H.
  - simpl in H. injection H as <-. simpl. lia.
  - simpl in H. do 6 inv_bind H.
    apply IH in H. rewrite H, length_app. simpl. lia.
Qed.

Lemma join_nonempty (sep : str) (lines : list str) :
  Forall (fun line => line <> []) lines -> lines <> [] -> Str.join sep lines <> [].
Proof.
  intros Hl Hn. destruct lines as [|a [|b rest]]; [congruence| |].
  - simpl. now inversion Hl.
  - cbn [Str.join]. apply app_nonempty_l. now inversion Hl.
Qed.

(** The pair returned after a loop: an empty text comes with no media. *)
Lemma listing_ok (found : list str * media_list) :
  lines_ok found -> Str.join [nl] (fst found) = [] -> snd found = [].
Proof.
  intros [Hl Hm] H. apply Hm.
  destruct (fst found) as [|a rest] eqn:E; [reflexivity|].
  exfalso. revert H. apply join_nonempty; [exact Hl|discriminate].
Qed.

Lemma fetch_error_nonempty : fetch_error <> [].
Proof. vm_compute. discriminate. Qed.

Lemma not_found_nonempty : not_found <> [].
Proof. vm_compute. discriminate. Qed.

(** A search function that returns an empty text returns no media. *)
Lemma returned_media (E : env) (p : provider) (v : value) :
  returned_by E p v -> fst v = [] -> snd v = [].
Proof.
  intros [o H].
  assert (Hcases : v = (fetch_error, []) \/ v = (not_found, []) \/
                   exists found, lines_ok found /\
                                 v = (Str.join [nl] (fst found), snd found)).
  { destruct p; cbn [search_result] in H;
      apply except_request_exception_ok in H;
      (destruct H as [H|H]; [|left; exact H]); right.
    - unfold omdb_try in H. do 3 inv_bind H.
      destruct (Py.eq_str x1 (utf8 "True")); [|left; congruence].
      do 3 inv_bind H. right. exists x4. split; [|congruence].
      eapply omdb_items_ok; [exact Hx4|apply lines_ok_start].
    - unfold tmdb_try in H. do 3 inv_bind H.
      destruct (Py.truth x1); [|left; congruence].
      do 3 inv_bind H. right. exists x4. split; [|congruence].
      eapply tmdb_items_ok; [exact Hx4|apply lines_ok_start].
    - unfold books_try in H. do 3 inv_bind H.
      destruct (Py.truth x1); [|left; congruence].
      do 3 inv_bind H. right. exists x4. split; [|congruence].
      eapply books_items_ok; [exact Hx4|apply lines_ok_start]. }
  destruct Hcases as [->|[->|(found & Hok & ->)]]; cbn [fst snd];
    [reflexivity|reflexivity|].
  apply listing_ok. exact Hok.
Qed.

(** [d.get(key, ...)] does not need its default when the key holds a value
    that counts as true. *)
Lemma get_truthy (d : json) (key : str) (default v : json) :
  Py.get d key JNull = Ok v -> Py.truth v = true -> Py.get d key default = Ok v.
Proof.
  destruct d; simpl; try discriminate.
  destruct (Py.lookup key items); [auto|].
  intros H Ht. injection H as <-. discriminate Ht.
Qed.

(** A value that counts as true has an element to iterate on. *)
Lemma iter_truthy (v : json) (l : list json) :
  Py.truth v = true -> Py.iter v = Ok l -> l <> [].
Proof.
  destruct v as [| | | |s|l0|items]; simpl; try discriminate.
  - destruct s; [discriminate|]. intros _ H. injection H as <-. discriminate.
  - destruct l0; [discriminate|]. intros _ H. injection H as <-. discriminate.
  - destruct items as [|[k x] items]; [discriminate|].
    intros _ H. injection H as <-. discriminate.
Qed.

(** The books search never returns an empty text. *)
Lemma books_result_nonempty (E : env) (v : value) :
  returned_by E Books v -> fst v <> [].
Proof.
  intros [o H]. cbn [search_result] in H.
  apply except_request_exception_ok in H.
  destruct H as [H| ->]; [|exact fetch_error_nonempty].
  unfold books_try in H. do 3 inv_bind H.
  destruct (Py.truth x1) eqn:Ht; [|injection H as <-; exact not_found_nonempty].
  do 3 inv_bind H. injection H as <-. cbn [fst].
  rewrite (get_truthy _ _ _ _ Hx1 Ht) in Hx2. injection Hx2 as <-.
  pose proof (iter_truthy _ _ Ht Hx3) as Hne.
  apply join_nonempty.
  - eapply books_items_ok; [exact Hx4|apply lines_ok_start].
  - apply books_items_length in Hx4. simpl in Hx4.
    destruct (fst x4); [|discriminate].
    destruct x3; [congruence|]. simpl in Hx4. lia.
Qed.

(** *** The memos *)

Lemma cache_of_with_cache_same (p : provider) (c : cache) (st : state) :
  cache_of p (with_cache p c st) = c.
Proof. destruct p; reflexivity. Qed.

Lemma cache_of_with_cache_other (p q : provider) (c : cache) (st : state) :
  p <> q -> cache_of q (with_cache p c st) = cache_of q st.
Proof. destruct p, q; (reflexivity || congruence). Qed.

Lemma cache_of_with_trace (q : provider) (t : list event) (st : state) :
  cache_of q (with_trace t st) = cache_of q st.
Proof. destruct q; reflexivity. Qed.

Lemma provider_eq_dec (p q : provider) : {p = q} + {p <> q}.
Proof. decide equality. Qed.

Lemma cache_find_in (query : str) (c : cache) (v : value) :
  cache_find query c = Some v -> exists q, In (q, v) c.
Proof.
  induction c as [|[q w] c IH]; simpl; [discriminate|].
  destruct (Str.eqb q query).
  - intros H. injection H as ->. eauto.
  - intros H. destruct (IH H) as [q' Hq]. eauto.
Qed.

Lemma cache_remove_forall (P : str * value -> Prop) (query : str) (c : cache) :
  Forall P c -> Forall P (cache_remove query c).
Proof.
  induction 1 as [|[q w] c Hq _ IH]; simpl; [constructor|].
  destruct (Str.eqb q query); [exact IH|constructor; assumption].
Qed.

Lemma firstn_forall {A : Type} (P : A -> Prop) (n : nat) (l : list A) :
  Forall P l -> Forall P (firstn n l).
Proof.
  intros H. apply Forall_forall. intros x Hx.
  apply in_firstn in Hx. revert x Hx. now apply Forall_forall.
Qed.

(** Replacing the memo of [p] by a sound one keeps the memos sound. *)
Lemma caches_sound_with_cache (E : env) (p : provider) (c : cache) (st : state) :
  caches_sound E st ->
  Forall (fun entry => returned_by E p (snd entry)) c ->
  caches_sound E (with_cache p c st).
Proof.
  intros Hs Hc q. destruct (provider_eq_dec p q) as [<-|Hpq].
  - rewrite cache_of_with_cache_same. exact Hc.
  - rewrite cache_of_with_cache_other by exact Hpq. apply Hs.
Qed.

Lemma caches_sound_with_trace (E : env) (t : list event) (st : state) :
  caches_sound E st -> caches_sound E (with_trace t st).
Proof. intros Hs q. rewrite cache_of_with_trace. apply Hs. Qed.

Lemma caches_sound_initial (E : env) : caches_sound E initial_state.
Proof. intros []; constructor. Qed.

(** A search returns a value of its function, from the memo or from the
    network, and leaves the memos sound. *)
Lemma get_recommendations_sound (E : env) (p : provider) (query : str)
    (st st' : state) (r : result value) :
  caches_sound E st ->
  get_recommendations p E query st = Some (r, st') ->
  caches_sound E st' /\ forall v, r = Ok v -> returned_by E p v.
Proof.
  intros Hs H.
  destruct (cache_find query (cache_of p st)) as [w|] eqn:Hfind.
  - rewrite (get_recommendations_hit _ _ _ _ _ Hfind) in H. injection H as <- <-.
    destruct (cache_find_in _ _ _ Hfind) as [q Hq].
    assert (Hw : returned_by E p w).
    { pose proof (Hs p) as Hp. rewrite Forall_forall in Hp. apply (Hp (q, w) Hq). }
    split.
    + apply caches_sound_with_cache; [exact Hs|].
      constructor; [exact Hw|]. apply cache_remove_forall. apply Hs.
    + intros v Hv. injection Hv as <-. exact Hw.
  - rewrite (get_recommendations_miss _ _ _ _ Hfind) in H. cbv zeta in H.
    destruct (search_result p E _) as [w|e] eqn:Hres.
    + assert (Hw : returned_by E p w) by (eexists; exact Hres).
      assert (Hc : Forall (fun entry => returned_by E p (snd entry))
                     (firstn maxsize ((query, w) :: cache_of p st))).
      { apply firstn_forall. constructor; [exact Hw|]. apply Hs. }
      revert H Hc. generalize (firstn maxsize ((query, w) :: cache_of p st)).
      intros c H Hc. injection H as <- <-.
      split.
      * apply caches_sound_with_cache; [now apply caches_sound_with_trace|exact Hc].
      * intros v Hv. injection Hv as <-. exact Hw.
    + injection H as <- <-.
      split; [now apply caches_sound_with_trace|discriminate].
Qed.

(** ** The message handler *)

(** What [recommend] returns is the aggregate of what the three searches
    returned, each a value of its function. *)
Lemma recommend_returns (E : env) (query : str) (st st' : state) (reply : value) :
  caches_sound E st ->
  recommend E query st = Some (Ok reply, st') ->
  exists omdb tmdb books st1 st2,
    get_recommendations_omdb E query st = Some (Ok omdb, st1) /\
    get_recommendations_tmdb E query st1 = Some (Ok tmdb, st2) /\
    get_recommendations_books E query st2 = Some (Ok books, st') /\
    returned_by E OMDb omdb /\ returned_by E TMDb tmdb /\ returned_by E Books books /\
    reply = aggregate omdb tmdb books /\
    caches_sound E st'.
Proof.
  intros Hs H. unfold recommend, Monad.bind, Monad.ret in H.
  destruct (get_recommendations_omdb E query st) as [[[omdb|e] st1]|] eqn:H1;
    try discriminate.
  destruct (get_recommendations_tmdb E query st1) as [[[tmdb|e] st2]|] eqn:H2;
    try discriminate.
  destruct (get_recommendations_books E query st2) as [[[books|e] st3]|] eqn:H3;
    try discriminate.
  injection H as <- <-.
  destruct (get_recommendations_sound E OMDb query st st1 _ Hs H1) as [Hs1 Hv1].
  destruct (get_recommendations_sound E TMDb query st1 st2 _ Hs1 H2) as [Hs2 Hv2].
  destruct (get_recommendations_sound E Books query st2 st3 _ Hs2 H3) as [Hs3 Hv3].
  exists omdb, tmdb, books, st1, st2.
  split; [reflexivity|]. split; [exact H2|]. split; [exact H3|].
  split; [apply Hv1; reflexivity|].
  split; [apply Hv2; reflexivity|].
  split; [apply Hv3; reflexivity|].
  split; [reflexivity|exact Hs3].
Qed.

Lemma add_block_media (header : str) (found reply : value) :
  (fst found = [] -> snd found = []) ->
  snd (add_block header found reply) = snd reply ++ snd found.
Proof.
  intros H. unfold add_block. destruct (truthy (fst found)) eqn:Ht; [reflexivity|].
  apply truthy_false in Ht. rewrite (H Ht). now rewrite app_nil_r.
Qed.

Lemma add_block_text (header : str) (found reply : value) :
  fst (add_block header found reply)
  = fst reply ++ (if truthy (fst found) then block header (fst found) else []).
Proof.
  unfold add_block. destruct (truthy (fst found)); [reflexivity|].
  now rewrite app_nil_r.
Qed.

(** The reply text is made of the blocks, in their order. *)
Lemma aggregate_text (omdb tmdb books : value) :
  fst (aggregate omdb tmdb books)
  = concat (map (fun b => block (fst b) (snd b)) (blocks omdb tmdb books)).
Proof.
  unfold aggregate, blocks. rewrite !add_block_text. cbn [fst snd filter].
  destruct (truthy (fst omdb)), (truthy (fst tmdb)), (truthy (fst books));
    cbn [map concat app fst snd]; rewrite ?app_nil_r, <- ?app_assoc; reflexivity.
Qed.

Lemma aggregate_media (omdb tmdb books : value) :
  (fst omdb = [] -> snd omdb = []) ->
  (fst tmdb = [] -> snd tmdb = []) ->
  (fst books = [] -> snd books = []) ->
  snd (aggregate omdb tmdb books) = snd omdb ++ snd tmdb ++ snd books.
Proof.
  intros H1 H2 H3. unfold aggregate.
  rewrite !add_block_media by assumption. cbn [snd app].
  now rewrite app_assoc.
Qed.

(** The three headers are different, so each heads one block or none. *)
Lemma aggregate_headers (omdb tmdb books : value) :
  header_count omdb_header (blocks omdb tmdb books)
  = (if truthy (fst omdb) then 1 else 0)%nat /\
  header_count tmdb_header (blocks omdb tmdb books)
  = (if truthy (fst tmdb) then 1 else 0)%nat /\
  header_count books_header (blocks omdb tmdb books)
  = (if truthy (fst books) then 1 else 0)%nat.
Proof.
  unfold blocks. cbn [filter fst snd].
  destruct (truthy (fst omdb)), (truthy (fst tmdb)), (truthy (fst books));
    repeat split; vm_compute; reflexivity.
Qed.

(** A text of white space is stripped to nothing. *)
Lemma lstrip_spaces (s : str) :
  Forall (fun c => isspace c = true) s -> lstrip s = [].
Proof.
  induction 1 as [|c s Hc _ IH]; [reflexivity|].
  cbn [lstrip]. rewrite Hc. exact IH.
Qed.

Lemma strip_spaces (s : str) :
  Forall (fun c => isspace c = true) s -> strip s = [].
Proof. intros H. unfold strip. rewrite (lstrip_spaces s H). reflexivity. Qed.

(** *** The claims about the handler *)

(** C6.  When the lower-cased message holds the keyword and what is left of
    the message once the keyword is removed is empty or white space only, the
    handler sends the request to say what to look for and nothing else: no
    search is called, no request is made, the memos are as they were. *)
Theorem empty_query_is_rejected (E : env) (fuel : nat) (user_message : str)
    (st : state) :
  contains (lower E user_message) keyword = true ->
  Forall (fun c => isspace c = true) (replace user_message keyword []) ->
  handle_message E fuel user_message st
  = Some (Ok tt, with_trace (trace st ++ [ReplyText ask_for_query]) st).
Proof.
  intros Hk Hq. unfold handle_message.
  rewrite Hk, (strip_spaces _ Hq). reflexivity.
Qed.

Lemma empty_query_is_rejected_witness :
  handle_message Demo.offline 0 (utf8 "  рекомендации ") initial_state
  = Some (Ok tt,
          with_trace (trace initial_state ++ [ReplyText ask_for_query]) initial_state).
Proof.
  apply (empty_query_is_rejected Demo.offline 0 (utf8 "  рекомендации ") initial_state).
  - vm_compute. reflexivity.
  - vm_compute. repeat constructor.
Defined.

(** C9, amended.  The books search never returns an empty text; the OMDb and
    the TMDb search can, and then return no media.  So the reply text of the
    three searches is never empty, and [deliver] always takes the branch that
    sends the parts and the media, never the one that answers that nothing
    was found. *)
Theorem nothing_found_is_unreachable (E : env) (query : str) (st st' : state)
    (reply : value) (fuel : nat) :
  caches_sound E st ->
  recommend E query st = Some (Ok reply, st') ->
  exists omdb tmdb books st1 st2,
    get_recommendations_omdb E query st = Some (Ok omdb, st1) /\
    get_recommendations_tmdb E query st1 = Some (Ok tmdb, st2) /\
    get_recommendations_books E query st2 = Some (Ok books, st') /\
    truthy (fst books) = true /\
    (truthy (fst omdb) = false -> snd omdb = []) /\
    (truthy (fst tmdb) = false -> snd tmdb = []) /\
    truthy (fst reply) = true /\
    deliver E fuel reply
    = (parts <- Monad.of_option (split_message fuel (fst reply) default_max_length) ;;
       reply_parts parts ;;
       relay E (snd reply))%monad.
Proof.
  intros Hs H.
  destruct (recommend_returns E query st st' reply Hs H)
    as (omdb & tmdb & books & st1 & st2 & H1 & H2 & H3 & R1 & R2 & R3 & -> & _).
  pose proof (books_result_nonempty E books R3) as Hb.
  apply truthy_true in Hb.
  assert (Ht : truthy (fst (aggregate omdb tmdb books)) = true).
  { apply truthy_true. unfold aggregate. rewrite add_block_text.
    apply app_nonempty_r. rewrite Hb.
    unfold block. apply app_nonempty_r. discriminate. }
  exists omdb, tmdb, books, st1, st2.
  split; [exact H1|]. split; [exact H2|]. split; [exact H3|].
  split; [exact Hb|].
  split; [intros H0; apply truthy_false in H0; now apply (returned_media E OMDb)|].
  split; [intros H0; apply truthy_false in H0; now apply (returned_media E TMDb)|].
  split; [exact Ht|]. unfold deliver. rewrite Ht. reflexivity.
Qed.

Lemma nothing_found_is_unreachable_witness :
  match recommend Demo.offline (utf8 "foo") initial_state with
  | Some (Ok reply, st') =>
      exists omdb tmdb books st1 st2,
        get_recommendations_omdb Demo.offline (utf8 "foo") initial_state
        = Some (Ok omdb, st1) /\
        get_recommendations_tmdb Demo.offline (utf8 "foo") st1 = Some (Ok tmdb, st2) /\
        get_recommendations_books Demo.offline (utf8 "foo") st2 = Some (Ok books, st') /\
        truthy (fst books) = true /\
        (truthy (fst omdb) = false -> snd omdb = []) /\
        (truthy (fst tmdb) = false -> snd tmdb = []) /\
        truthy (fst reply) = true /\
        deliver Demo.offline 1 reply
        = (parts <- Monad.of_option (split_message 1 (fst reply) default_max_length) ;;
           reply_parts parts ;;
           relay Demo.offline (snd reply))%monad
  | _ => False
  end.
Proof.
  destruct (recommend Demo.offline (utf8 "foo") initial_state)
    as [[[reply|e] st']|] eqn:H.
  - apply (nothing_found_is_unreachable Demo.offline (utf8 "foo") initial_state st' reply 1).
    + apply caches_sound_initial.
    + exact H.
  - vm_compute in H. discriminate H.
  - vm_compute in H. discriminate H.
Defined.

(** C9, as the specification has it, fails: the TMDb search returns an empty
    text when no result is a film or a series. *)
Lemma tmdb_text_can_be_empty :
  outcome_of
    (get_recommendations_tmdb
       (Demo.world (Demo.answer 200 (JObj [(utf8 "results", JArr [Demo.a_person])])))
       (utf8 "foo") initial_state)
  = Some (Ok ([], [])).
Proof. vm_compute. reflexivity. Qed.

(** In a world without network the whole run for the message
    "Рекомендации фильмы": the three requests carry the capitalised keyword,
    and the reply is sent in one part. *)
Example capital_request_run :
  option_map (fun r => trace (snd r))
    (handle_message Demo.offline 1 Demo.capital_request initial_state)
  = Some [Get (JStr (omdb_url Demo.offline Demo.capital_request));
          Get (JStr (tmdb_url Demo.offline Demo.capital_request));
          Get (JStr (books_url Demo.offline Demo.capital_request));
          ReplyText (block omdb_header fetch_error ++ block tmdb_header fetch_error
                     ++ block books_header fetch_error)].
Proof. vm_compute. reflexivity. Qed.

(** *** The memos stay sound *)

Lemma keeps_caches_ret {A : Type} (a : A) : keeps_caches (Monad.ret a).
Proof. intros st r st' H p. unfold Monad.ret in H. now injection H as <- <-. Qed.

Lemma keeps_caches_emit (ev : event) : keeps_caches (Monad.emit ev).
Proof.
  intros st r st' H p. unfold Monad.emit in H. injection H as <- <-.
  apply cache_of_with_trace.
Qed.

Lemma keeps_caches_of_result {A : Type} (x : result A) : keeps_caches (Monad.of_result x).
Proof. intros st r st' H p. unfold Monad.of_result in H. now injection H as <- <-. Qed.

Lemma keeps_caches_of_option {A : Type} (x : option A) : keeps_caches (Monad.of_option x).
Proof.
  intros st r st' H p. unfold Monad.of_option in H.
  destruct x; [|discriminate]. now injection H as <- <-.
Qed.

Lemma keeps_caches_bind {A B : Type} (m : M A) (k : A -> M B) :
  keeps_caches m -> (forall a, keeps_caches (k a)) -> keeps_caches (Monad.bind m k).
Proof.
  intros Hm Hk st r st' H p. unfold Monad.bind in H.
  destruct (m st) as [[[a|e] st1]|] eqn:E1; [| |discriminate].
  - rewrite (Hk a st1 r st' H p). exact (Hm st _ st1 E1 p).
  - injection H as <- <-. exact (Hm st _ st1 E1 p).
Qed.

Lemma keeps_caches_request (E : env) (ev : event) : keeps_caches (request E ev).
Proof.
  unfold request. apply keeps_caches_bind; [apply keeps_caches_emit|].
  intros _ st r st' H p. now injection H as <- <-.
Qed.

Lemma keeps_caches_reply_parts (parts : list str) : keeps_caches (reply_parts parts).
Proof.
  induction parts as [|part rest IH]; cbn [reply_parts].
  - apply keeps_caches_ret.
  - apply keeps_caches_bind; [apply keeps_caches_emit|intros _; exact IH].
Qed.

Lemma keeps_caches_relay (E : env) (media : media_list) : keeps_caches (relay E media).
Proof.
  induction media as [|[poster_url caption] rest IH]; cbn [relay].
  - apply keeps_caches_ret.
  - apply keeps_caches_bind; [apply keeps_caches_request|]. intros o.
    apply keeps_caches_bind; [|intros _; exact IH].
    destruct (checked o); apply keeps_caches_emit.
Qed.

Lemma keeps_caches_deliver (E : env) (fuel : nat) (reply : value) :
  keeps_caches (deliver E fuel reply).
Proof.
  unfold deliver. destruct (truthy (fst reply)); [|apply keeps_caches_emit].
  apply keeps_caches_bind; [apply keeps_caches_of_option|]. intros parts.
  apply keeps_caches_bind; [apply keeps_caches_reply_parts|]. intros _.
  apply keeps_caches_relay.
Qed.

Lemma keeps_caches_sound {A : Type} (E : env) (m : M A) (st st' : state)
    (r : result A) :
  keeps_caches m -> m st = Some (r, st') -> caches_sound E st -> caches_sound E st'.
Proof. intros Hm H Hs p. rewrite (Hm st r st' H p). apply Hs. Qed.

Lemma recommend_sound (E : env) (query : str) (st st' : state) (r : result value) :
  caches_sound E st -> recommend E query st = Some (r, st') -> caches_sound E st'.
Proof.
  intros Hs H. unfold recommend, Monad.bind, Monad.ret in H.
  destruct (get_recommendations_omdb E query st) as [[r1 st1]|] eqn:H1;
    [|discriminate].
  destruct (get_recommendations_sound E OMDb query st st1 _ Hs H1) as [Hs1 _].
  destruct r1 as [omdb|e]; [|now injection H as <- <-].
  destruct (get_recommendations_tmdb E query st1) as [[r2 st2]|] eqn:H2;
    [|discriminate].
  destruct (get_recommendations_sound E TMDb query st1 st2 _ Hs1 H2) as [Hs2 _].
  destruct r2 as [tmdb|e]; [|now injection H as <- <-].
  destruct (get_recommendations_books E query st2) as [[r3 st3]|] eqn:H3;
    [|discriminate].
  destruct (get_recommendations_sound E Books query st2 st3 _ Hs2 H3) as [Hs3 _].
  destruct r3 as [books|e]; now injection H as <- <-.
Qed.

(** The handler leaves the memos sound. *)
Lemma handle_message_sound (E : env) (fuel : nat) (user_message : str)
    (st st' : state) (r : result unit) :
  caches_sound E st ->
  handle_message E fuel user_message st = Some (r, st') ->
  caches_sound E st'.
Proof.
  intros Hs H. unfold handle_message in H.
  destruct (contains (lower E user_message) keyword).
  - destruct (negb (truthy (strip (replace user_message keyword [])))).
    + eapply keeps_caches_sound; [apply keeps_caches_emit|exact H|exact Hs].
    + unfold Monad.bind in H.
      destruct (recommend E _ st) as [[[reply|e] st1]|] eqn:H1; [| |discriminate].
      * eapply keeps_caches_sound; [apply keeps_caches_deliver|exact H|].
        eapply recommend_sound; [exact Hs|exact H1].
      * injection H as <- <-. eapply recommend_sound; [exact Hs|exact H1].
  - eapply keeps_caches_sound; [|exact H|exact Hs].
    apply keeps_caches_bind.
    + unfold get_mistral_response.
      apply keeps_caches_bind; [apply keeps_caches_request|].
      intros o. apply keeps_caches_of_result.
    + intros text. apply keeps_caches_bind; [apply keeps_caches_of_option|].
      intros parts. apply keeps_caches_reply_parts.
Qed.

(** Every state the process goes through has sound memos. *)
Lemma reachable_sound (E : env) (st : state) : reachable E st -> caches_sound E st.
Proof.
  induction 1 as [|st st' fuel user_message r _ IH H].
  - apply caches_sound_initial.
  - eapply handle_message_sound; [exact IH|exact H].
Qed.

(** *** The headers as lines of the reply text *)

Lemma eqb_eq (s t : str) : Str.eqb s t = true <-> s = t.
Proof.
  revert t. induction s as [|c s IH]; intros [|d t]; simpl;
    try (split; (reflexivity || discriminate)).
  rewrite andb_true_iff, N.eqb_eq, IH. split.
  - intros [-> ->]. reflexivity.
  - intros H. injection H as -> ->. split; reflexivity.
Qed.

Lemma split_lines_nonempty (s : str) : split_lines s <> [].
Proof.
  induction s as [|c s IH]; simpl; [discriminate|].
  destruct (N.eqb c nl); [discriminate|].
  destruct (split_lines s); discriminate.
Qed.

(** A line feed separates the lines before it from the lines after it. *)
Lemma split_lines_app (s t : str) :
  split_lines (s ++ nl :: t) = split_lines s ++ split_lines t.
Proof.
  induction s as [|c s IH]; [reflexivity|].
  cbn [app split_lines]. rewrite IH.
  destruct (N.eqb c nl); [reflexivity|].
  pose proof (split_lines_nonempty s) as Hs.
  destruct (split_lines s); [congruence|reflexivity].
Qed.

Lemma split_lines_one (s : str) :
  forallb (fun c => negb (N.eqb c nl)) s = true -> split_lines s = [s].
Proof.
  induction s as [|c s IH]; [reflexivity|].
  cbn [forallb split_lines]. rewrite andb_true_iff, negb_true_iff.
  intros [-> Hs]. rewrite (IH Hs). reflexivity.
Qed.

(** The lines of a block: the header, the lines of the body, and the empty
    line before what follows. *)
Lemma split_lines_block (header body rest : str) :
  forallb (fun c => negb (N.eqb c nl)) header = true ->
  split_lines (block header body ++ rest)
  = header :: split_lines body ++ [] :: split_lines rest.
Proof.
  intros Hh. unfold block.
  replace ((header ++ [nl] ++ body ++ [nl; nl]) ++ rest)
    with (header ++ nl :: (body ++ nl :: (nl :: rest)))
    by (rewrite <- !app_assoc; reflexivity).
  rewrite !split_lines_app, (split_lines_one header Hh). reflexivity.
Qed.

Lemma filter_absent (line : str) (lines : list str) :
  ~ In line lines -> filter (Str.eqb line) lines = [].
Proof.
  induction lines as [|l lines IH]; [reflexivity|].
  intros H. cbn [filter].
  destruct (Str.eqb line l) eqn:E.
  - apply eqb_eq in E. subst l. exfalso. apply H. now left.
  - apply IH. intros Hin. apply H. now right.
Qed.

Lemma eqb_sym (s t : str) : Str.eqb s t = Str.eqb t s.
Proof.
  destruct (Str.eqb s t) eqn:E, (Str.eqb t s) eqn:F; try reflexivity.
  - apply eqb_eq in E. subst t. rewrite (proj2 (eqb_eq s s) eq_refl) in F. discriminate.
  - apply eqb_eq in F. subst t. rewrite (proj2 (eqb_eq s s) eq_refl) in E. discriminate.
Qed.

(** In a text made of blocks whose bodies have no line that is [header],
    the lines that are [header] are the headers of the blocks. *)
Lemma line_count_blocks (header : str) (bs : list (str * str)) :
  header <> [] ->
  (forall b, In b bs -> forallb (fun c => negb (N.eqb c nl)) (fst b) = true) ->
  (forall b, In b bs -> ~ In header (split_lines (snd b))) ->
  line_count header (concat (map (fun b => block (fst b) (snd b)) bs))
  = header_count header bs.
Proof.
  intros Hh. unfold line_count, header_count.
  induction bs as [|[h body] bs IH]; intros Hnl Hbody.
  - cbn [map concat split_lines filter].
    destruct (Str.eqb header []) eqn:E; [|reflexivity].
    apply eqb_eq in E. congruence.
  - cbn [map concat fst snd].
    rewrite split_lines_block by (apply (Hnl (h, body)); now left).
    cbn [filter fst]. rewrite filter_app. cbn [filter].
    rewrite (filter_absent header (split_lines body))
      by (apply (Hbody (h, body)); now left).
    replace (Str.eqb header []) with false
      by (destruct (Str.eqb header []) eqn:E; [apply eqb_eq in E; congruence|reflexivity]).
    cbn [app]. rewrite (eqb_sym h header).
    assert (IH' := IH (fun b Hb => Hnl b (or_intror Hb))
                      (fun b Hb => Hbody b (or_intror Hb))).
    destruct (Str.eqb header h); cbn [length]; rewrite IH'; reflexivity.
Qed.

Lemma aggregate_header_lines (omdb tmdb books : value) :
  (forall header body,
      In header [omdb_header; tmdb_header; books_header] ->
      In body [fst omdb; fst tmdb; fst books] ->
      ~ In header (split_lines body)) ->
  line_count omdb_header (fst (aggregate omdb tmdb books))
  = (if truthy (fst omdb) then 1 else 0)%nat /\
  line_count tmdb_header (fst (aggregate omdb tmdb books))
  = (if truthy (fst tmdb) then 1 else 0)%nat /\
  line_count books_header (fst (aggregate omdb tmdb books))
  = (if truthy (fst books) then 1 else 0)%nat.
Proof.
  intros H. rewrite (aggregate_text omdb tmdb books).
  assert (Hin : forall b, In b (blocks omdb tmdb books) ->
                  In (fst b) [omdb_header; tmdb_header; books_header] /\
                  In (snd b) [fst omdb; fst tmdb; fst books]).
  { intros b Hb. unfold blocks in Hb. apply filter_In in Hb. destruct Hb as [Hb _].
    destruct Hb as [<-|[<-|[<-|[]]]]; cbn [fst snd In]; tauto. }
  assert (Hnl : forall b, In b (blocks omdb tmdb books) ->
                  forallb (fun c => negb (N.eqb c nl)) (fst b) = true).
  { intros b Hb. destruct (Hin b Hb) as [[<-|[<-|[<-|[]]]] _];
      vm_compute; reflexivity. }
  destruct (aggregate_headers omdb tmdb books) as (C1 & C2 & C3).
  rewrite <- C1, <- C2, <- C3.
  repeat split; apply line_count_blocks; try exact Hnl;
    try (vm_compute; discriminate);
    intros b Hb; destruct (Hin b Hb) as [_ Hbody];
    apply H; cbn [In]; tauto.
Qed.

(** The headers counted on the lines of the text: when no line of the
    three texts is itself one of the headers, the header of a search is a line of the reply text
    exactly once if the text of the search is not empty, and never if it is. *)
Lemma header_lines_once (omdb tmdb books : value) :
  (forall header body,
      In header [omdb_header; tmdb_header; books_header] ->
      In body [fst omdb; fst tmdb; fst books] ->
      ~ In header (split_lines body)) ->
  line_count omdb_header (fst (aggregate omdb tmdb books))
  = (if truthy (fst omdb) then 1 else 0)%nat /\
  line_count tmdb_header (fst (aggregate omdb tmdb books))
  = (if truthy (fst tmdb) then 1 else 0)%nat /\
  line_count books_header (fst (aggregate omdb tmdb books))
  = (if truthy (fst books) then 1 else 0)%nat.
Proof. apply aggregate_header_lines. Qed.

(** ** The language model and the posters *)

(** A request to the model that fails is answered with the error text. *)
Lemma mistral_failure_is_caught (o : http_outcome) :
  request_failed o = true -> mistral_result o = Ok mistral_error.
Proof.
  intros H. destruct o as [|r]; [reflexivity|].
  cbn [request_failed] in H.
  unfold mistral_result, mistral_try. cbn [checked]. unfold raise_for_status.
  destruct ((400 <=? status_code r) && (status_code r <? 600)); [reflexivity|].
  cbn [Res.bind]. unfold response_json.
  destruct (json_body r); [discriminate|reflexivity].
Qed.

(** An answer without the key [choices] is answered with the other error
    text. *)
Example mistral_missing_key :
  mistral_result (Demo.answer 200 (JObj [])) = Ok mistral_bad_answer.
Proof. reflexivity. Qed.

(** * Further properties of the code *)

(** ** The paginator, beyond the claims *)

(** An iteration that cuts an empty part leaves the message as it was, and
    so does every iteration after it. *)
Lemma split_message_loop_empty_cut (max_length : Z) (message : str) (fuel : nat) :
  forall parts,
    message <> [] -> max_length < len message -> cut max_length message = [] ->
    split_message_loop fuel parts message max_length = None.
Proof.
  induction fuel as [|fuel IH]; intros parts Hm Hl Hc; [reflexivity|].
  rewrite split_message_loop_step by assumption.
  rewrite Hc. apply IH; assumption.
Qed.

Lemma split_message_loop_nonempty (max_length : Z) (fuel : nat) :
  forall parts message r,
    Forall (fun part => part <> []) parts ->
    split_message_loop fuel parts message max_length = Some r ->
    Forall (fun part => part <> []) r.
Proof.
  induction fuel as [|fuel IH]; intros parts message r Hp H; [discriminate|].
  destruct message as [|c message].
  - simpl in H. injection H as <-. exact Hp.
  - destruct (Z.leb_spec (len (c :: message)) max_length) as [Hl|Hl].
    + rewrite split_message_loop_last in H by (congruence || lia).
      injection H as <-. apply Forall_app. split; [exact Hp|].
      constructor; [discriminate|constructor].
    + destruct (cut max_length (c :: message)) as [|d part] eqn:Hc.
      * rewrite split_message_loop_empty_cut in H
          by (assumption || discriminate).
        discriminate H.
      * rewrite split_message_loop_step in H by (congruence || lia).
        rewrite Hc in H. apply IH in H; [exact H|].
        apply Forall_app. split; [exact Hp|].
        constructor; [discriminate|constructor].
Qed.

(** No chunk of a returned sequence is empty. *)
Theorem split_message_chunks_nonempty (message : str) (max_length : Z)
    (parts : list str) :
  split_message_returns message max_length parts ->
  Forall (fun part => part <> []) parts.
Proof.
  intros [fuel H]. eapply split_message_loop_nonempty; [|exact H]. constructor.
Qed.

Lemma split_message_chunks_nonempty_witness :
  Forall (fun part => part <> [])
    [utf8 "abcde"; nl :: utf8 "fghij"; nl :: utf8 "klmno"].
Proof.
  apply (split_message_chunks_nonempty
           (utf8 "abcde" ++ [nl] ++ utf8 "fghij" ++ [nl] ++ utf8 "klmno") 10).
  exists 3%nat. exact split_message_three_lines_run.
Defined.

(** The chunks of a returned sequence concatenate to the text: the
    paginator drops and repeats nothing, line feeds included. *)
Theorem split_message_lossless (message : str) (max_length : Z) (parts : list str) :
  split_message_returns message max_length parts -> concat parts = message.
Proof. apply split_message_concat. Qed.

Lemma split_message_lossless_witness :
  concat [utf8 "abcde"; nl :: utf8 "fghij"; nl :: utf8 "klmno"]
  = utf8 "abcde" ++ [nl] ++ utf8 "fghij" ++ [nl] ++ utf8 "klmno".
Proof.
  apply (split_message_lossless _ 10).
  exists 3%nat. exact split_message_three_lines_run.
Defined.

(** With a [max_length] of zero or less, no text but the empty one is ever
    returned. *)
Theorem split_message_needs_positive_length (message : str) (max_length : Z) :
  max_length <= 0 -> message <> [] -> split_message_diverges message max_length.
Proof.
  intros Hk Hm fuel. unfold split_message.
  destruct (Z.eq_dec max_length 0) as [->|Hne].
  - apply split_message_loop_empty_cut; [exact Hm| |reflexivity].
    destruct message; [congruence|]. rewrite len_cons.
    pose proof (len_nonneg message). lia.
  - apply split_message_loop_negative; [lia|exact Hm].
Qed.

Lemma split_message_needs_positive_length_witness :
  split_message_diverges (utf8 "abc") 0.
Proof.
  apply split_message_needs_positive_length; [lia|discriminate].
Defined.

(** A text without line feeds and a positive [max_length]: the call returns,
    with as many chunks as windows of [max_length] characters are needed to
    cover the text. *)
Lemma split_message_loop_windows (max_length : Z) (n : nat) :
  forall parts message,
    0 < max_length ->
    (forall c, In c message -> c <> nl) ->
    Z.of_nat n * max_length - max_length < len message <= Z.of_nat n * max_length ->
    exists r, split_message_loop (S n) parts message max_length = Some r /\
              length r = (length parts + n)%nat.
Proof.
  induction n as [|n IH]; intros parts message Hk Hn Hl.
  - destruct message as [|c message].
    + exists parts. split; [reflexivity|lia].
    + pose proof (len_nonneg message). rewrite len_cons in Hl. lia.
  - rewrite Nat2Z.inj_succ, Z.mul_succ_l in Hl.
    pose proof (len_nonneg message) as Hlen.
    destruct message as [|c message].
    + change (len []) with 0 in Hl. nia.
    + destruct (Z.leb_spec (len (c :: message)) max_length) as [Hs|Hs].
      * exists (parts ++ [c :: message]). split.
        -- apply split_message_loop_last; (congruence || lia).
        -- rewrite length_app. simpl length.
           assert (n = 0%nat) by nia. lia.
      * rewrite split_message_loop_step by (congruence || lia).
        rewrite cut_without_newline by exact Hn.
        destruct (IH (parts ++ [slice_to (c :: message) max_length])
                    (slice_from (c :: message)
                       (len (slice_to (c :: message) max_length))) Hk)
          as (r & Hr & Hlr).
        -- intros d Hd. apply Hn. unfold slice_from in Hd. eapply in_skipn. exact Hd.
        -- unfold slice_from. rewrite to_nat_len, slice_to_nonneg by lia.
           unfold len in *. rewrite length_skipn, length_firstn. lia.
        -- exists r. split; [exact Hr|]. rewrite Hlr, length_app. simpl. lia.
Qed.

(** On a text without line feeds, with a positive [max_length], the call
    returns exactly [n] chunks, [n] being the number of windows of
    [max_length] characters that cover the text. *)
Theorem split_message_windows (message : str) (max_length : Z) (n : nat) :
  0 < max_length ->
  (forall c, In c message -> c <> nl) ->
  Z.of_nat n * max_length - max_length < len message <= Z.of_nat n * max_length ->
  exists parts, split_message_returns message max_length parts /\ length parts = n.
Proof.
  intros Hk Hn Hl.
  destruct (split_message_loop_windows max_length n [] message Hk Hn Hl) as (r & Hr & Hlr).
  exists r. split; [exists (S n); exact Hr|exact Hlr].
Qed.

Lemma split_message_windows_witness :
  exists parts, split_message_returns (utf8 "abcdefghij") 4 parts /\ length parts = 3%nat.
Proof.
  apply split_message_windows.
  - lia.
  - intros c Hc. vm_compute in Hc.
    repeat (destruct Hc as [<-|Hc]; [discriminate|]). destruct Hc.
  - vm_compute. split; [reflexivity|discriminate].
Defined.

Lemma split_message_stuck_witness : split_message_diverges (nl :: utf8 "abc") 3.
Proof.
  apply split_message_stuck.
  - lia.
  - vm_compute. discriminate.
  - intros c Hc. vm_compute in Hc.
    repeat (destruct Hc as [<-|Hc]; [discriminate|]). destruct Hc.
Defined.

(** The loop returns when every message it comes to, if longer than
    [max_length], is cut at a part that is not empty. *)
Lemma split_message_loop_progress (max_length : Z) (fuel : nat) :
  forall parts message,
    (forall j, max_length < len (skipn j message) ->
               cut max_length (skipn j message) <> []) ->
    (length message <= fuel)%nat ->
    exists r, split_message_loop (S fuel) parts message max_length = Some r.
Proof.
  induction fuel as [|fuel IH]; intros parts message Hcut Hfuel.
  - destruct message; [eexists; reflexivity|simpl in Hfuel; lia].
  - destruct message as [|c message]; [eexists; reflexivity|].
    destruct (Z.leb_spec (len (c :: message)) max_length) as [Hs|Hs].
    + eexists. apply split_message_loop_last; (congruence || lia).
    + rewrite split_message_loop_step by (congruence || lia).
      pose proof (Hcut 0%nat Hs) as Hne. cbn [skipn] in Hne.
      apply IH.
      * intros j Hj. unfold slice_from in *. rewrite to_nat_len in *.
        rewrite skipn_skipn in *. apply Hcut. exact Hj.
      * unfold slice_from. rewrite to_nat_len, length_skipn.
        destruct (cut max_length (c :: message)); [congruence|].
        simpl length in *. lia.
Qed.

Lemma rfind_found (s : str) (c : char) : In c s -> 0 <= rfind s c.
Proof.
  induction s as [|d s IH]; [intros []|].
  intros [->|H]; cbn [rfind].
  - destruct (rfind_range s c) as [E|E].
    + rewrite E. cbn. rewrite N.eqb_refl. lia.
    + destruct (Z.eqb_spec (rfind s c) (-1)); lia.
  - specialize (IH H). destruct (Z.eqb_spec (rfind s c) (-1)); lia.
Qed.

Lemma rfind_after_first (s : str) (d c : char) : In c s -> 1 <= rfind (d :: s) c.
Proof.
  intros H. apply rfind_found in H. cbn [rfind].
  destruct (Z.eqb_spec (rfind s c) (-1)); lia.
Qed.

(** When every stretch of [max_length - 1] characters of the text holds a
    line feed, the call returns. *)
Theorem split_message_returns_on_short_lines (message : str) (max_length : Z) :
  0 < max_length ->
  (forall n, (n + Z.to_nat (max_length - 1) <= length message)%nat ->
             In nl (firstn (Z.to_nat (max_length - 1)) (skipn n message))) ->
  exists parts, split_message_returns message max_length parts.
Proof.
  intros Hk Hdense.
  destruct (split_message_loop_progress max_length (length message) [] message)
    as [r Hr]; [|lia|exists r, (S (length message)); exact Hr].
  intros j Hj.
  destruct (skipn j message) as [|c rest] eqn:Ht.
  { change (len []) with 0 in Hj. lia. }
  assert (Hrest : rest = skipn (S j) message).
  { replace (S j) with (1 + j)%nat by lia.
    rewrite <- skipn_skipn, Ht. reflexivity. }
  assert (Hin : In nl (firstn (Z.to_nat (max_length - 1)) rest)).
  { rewrite Hrest. apply Hdense.
    apply (f_equal (@length _)) in Ht. rewrite length_skipn in Ht.
    rewrite len_cons in Hj. unfold len in Hj. simpl length in Ht. lia. }
  unfold cut. rewrite slice_to_nonneg by lia.
  replace (Z.to_nat max_length) with (S (Z.to_nat (max_length - 1))) by lia.
  rewrite firstn_cons.
  pose proof (rfind_after_first _ c nl Hin) as Hr.
  destruct (Z.eqb_spec (rfind (c :: firstn (Z.to_nat (max_length - 1)) rest) nl) (-1));
    [lia|].
  cbn [negb]. rewrite slice_to_nonneg by lia.
  intros E. apply (f_equal (@length _)) in E.
  rewrite length_firstn in E. simpl length in E. lia.
Qed.

Lemma split_message_returns_on_short_lines_witness :
  exists parts,
    split_message_returns (utf8 "ab" ++ [nl] ++ utf8 "cd" ++ [nl] ++ utf8 "ef") 4 parts.
Proof.
  apply split_message_returns_on_short_lines; [lia|].
  intros n Hn.
  change (length (utf8 "ab" ++ [nl] ++ utf8 "cd" ++ [nl] ++ utf8 "ef")) with 8%nat in Hn.
  change (Z.to_nat (4 - 1)) with 3%nat in Hn.
  do 6 (destruct n as [|n]; [vm_compute; tauto|]).
  exfalso. lia.
Defined.

(** ** The search functions, beyond the claims *)

Lemma startswith_app (s t : str) : startswith (s ++ t) s = true.
Proof.
  induction s as [|c s IH]; [destruct t; reflexivity|].
  cbn [app startswith]. rewrite N.eqb_refl. exact IH.
Qed.

Lemma startswith_longer (s t sub : str) :
  startswith s sub = true -> startswith (s ++ t) sub = true.
Proof.
  revert sub. induction s as [|c s IH]; intros [|d sub] H.
  - destruct t; reflexivity.
  - discriminate H.
  - reflexivity.
  - cbn [app startswith] in *. apply andb_true_iff in H. destruct H as [Hc Hs].
    rewrite Hc. apply IH. exact Hs.
Qed.

Lemma contains_unfold (s sub : str) :
  contains s sub
  = startswith s sub || match s with [] => false | _ :: s' => contains s' sub end.
Proof. destruct s; reflexivity. Qed.

Lemma contains_start (s t : str) : contains (s ++ t) s = true.
Proof. rewrite contains_unfold, startswith_app. reflexivity. Qed.

Lemma contains_after (a s sub : str) :
  contains s sub = true -> contains (a ++ s) sub = true.
Proof.
  intros H. induction a as [|c a IH]; [exact H|].
  cbn [app]. rewrite contains_unfold, IH. apply orb_true_r.
Qed.

Lemma contains_before (s t sub : str) :
  contains s sub = true -> contains (s ++ t) sub = true.
Proof.
  induction s as [|c s IH]; rewrite contains_unfold.
  - rewrite orb_false_r. intros H. rewrite contains_unfold.
    rewrite (startswith_longer [] t sub H). reflexivity.
  - rewrite orb_true_iff. intros [H|H].
    + rewrite contains_unfold, (startswith_longer (c :: s) t sub H). reflexivity.
    + cbn [app]. rewrite contains_unfold, (IH H). apply orb_true_r.
Qed.

(** A line is a part of the lines joined. *)
Lemma join_contains (sep : str) (lines : list str) (line : str) :
  In line lines -> contains (Str.join sep lines) line = true.
Proof.
  induction lines as [|a rest IH]; [intros []|].
  intros [->|H].
  - destruct rest as [|b rest]; cbn [Str.join].
    + rewrite <- (app_nil_r line) at 1. apply contains_start.
    + apply contains_start.
  - destruct rest as [|b rest]; [destruct H|].
    change (Str.join sep (a :: b :: rest)) with (a ++ sep ++ Str.join sep (b :: rest)).
    apply contains_after, contains_after, IH. exact H.
Qed.









(** *** Results that are neither films nor series *)

Lemma tmdb_items_skip (E : env) (results : list json) :
  forall recommendations media,
    Forall (fun item => exists media_type,
                Py.get item (utf8 "media_type") JNull = Ok media_type /\
                Py.eq_str media_type (utf8 "movie") = false /\
                Py.eq_str media_type (utf8 "tv") = false) results ->
    tmdb_items E results recommendations media = Ok (recommendations, media).
Proof.
  induction results as [|item rest IH]; intros recommendations media H;
    [reflexivity|].
  inversion H as [|? ? (media_type & Hget & Hmovie & Htv) Hrest]; subst.
  cbn [tmdb_items]. rewrite Hget. cbn [Res.bind]. rewrite Hmovie, Htv.
  cbn [Res.bind fst snd]. apply IH. exact Hrest.
Qed.

(** A TMDb answer whose results are all of another type than film or
    series (people, for instance) gives an empty text and no media: not the
    text that nothing was found, which is kept for an answer without
    results. *)
Theorem tmdb_other_types_give_empty_text (E : env) (r : response) (data : json)
    (results : list json) :
  raise_for_status r = Ok tt ->
  json_body r = Some data ->
  Py.get data (utf8 "results") JNull = Ok (JArr results) ->
  results <> [] ->
  Forall (fun item => exists media_type,
              Py.get item (utf8 "media_type") JNull = Ok media_type /\
              Py.eq_str media_type (utf8 "movie") = false /\
              Py.eq_str media_type (utf8 "tv") = false) results ->
  tmdb_result E (Answered r) = Ok ([], []).
Proof.
  intros Hs Hb Hget Hne Hall.
  assert (Ht : Py.truth (JArr results) = true)
    by (destruct results; [congruence|reflexivity]).
  unfold tmdb_result, tmdb_try. cbn [checked]. rewrite Hs. cbn [Res.bind].
  unfold response_json. rewrite Hb. cbn [Res.bind].
  rewrite Hget. cbn [Res.bind]. rewrite Ht.
  rewrite (get_truthy _ _ (JArr []) _ Hget Ht). cbn [Res.bind Py.iter].
  rewrite (tmdb_items_skip E results [] [] Hall). reflexivity.
Qed.

Lemma tmdb_other_types_give_empty_text_witness :
  tmdb_result Demo.offline
    (Demo.answer 200 (JObj [(utf8 "results", JArr [Demo.a_person])]))
  = Ok ([], []).
Proof.
  apply (tmdb_other_types_give_empty_text Demo.offline _
           (JObj [(utf8 "results", JArr [Demo.a_person])]) [Demo.a_person]).
  - reflexivity.
  - reflexivity.
  - vm_compute. reflexivity.
  - discriminate.
  - constructor; [|constructor].
    exists (JStr (utf8 "person")). vm_compute. repeat split.
Defined.

(** *** The year of a TMDb date *)

Lemma split_head_prefix (s : str) (sep : char) :
  exists rest, s = split_head s sep ++ rest /\
               ~ In sep (split_head s sep) /\
               (rest = [] \/ exists rest', rest = sep :: rest').
Proof.
  induction s as [|c s (rest & Hs & Hn & Hr)].
  - exists []. simpl. tauto.
  - cbn [split_head]. destruct (N.eqb_spec c sep) as [->|Hc].
    + exists (sep :: s). split; [reflexivity|]. split; [intros []|].
      right. eexists. reflexivity.
    + exists rest. split; [cbn [app]; congruence|]. split; [|exact Hr].
      intros [H|H]; [congruence|exact (Hn H)].
Qed.

(** The year written for a TMDb date that is a string and not empty: what
    stands before its first [-], all of it when it has none. *)
Theorem tmdb_year_is_date_prefix (s : str) :
  s <> [] ->
  exists year rest,
    tmdb_year (JStr s) = Ok year /\ s = year ++ rest /\ ~ In 45%N year /\
    (rest = [] \/ exists rest', rest = 45%N :: rest').
Proof.
  intros Hs. destruct (split_head_prefix s 45%N) as (rest & H1 & H2 & H3).
  exists (split_head s 45%N), rest. split; [|auto].
  unfold tmdb_year. destruct s; [congruence|reflexivity].
Qed.

Lemma tmdb_year_is_date_prefix_witness :
  exists year rest,
    tmdb_year (JStr (utf8 "2020-05-01")) = Ok year /\
    utf8 "2020-05-01" = year ++ rest /\ ~ In 45%N year /\
    (rest = [] \/ exists rest', rest = 45%N :: rest').
Proof. apply tmdb_year_is_date_prefix. discriminate. Defined.

(** *** The memos *)

Lemma eqb_refl (s : str) : Str.eqb s s = true.
Proof. apply eqb_eq. reflexivity. Qed.

(** All a call of a search function does to the state. *)
Lemma get_recommendations_cases (E : env) (p : provider) (query : str)
    (st st' : state) (r : result value) :
  get_recommendations p E query st = Some (r, st') ->
  (forall q, q <> p -> cache_of q st' = cache_of q st) /\
  ((exists v, cache_find query (cache_of p st) = Some v /\ r = Ok v /\
              cache_of p st' = (query, v) :: cache_remove query (cache_of p st) /\
              trace st' = trace st)
   \/ (cache_find query (cache_of p st) = None /\
       trace st' = trace st ++ [Get (JStr (search_url p E query))] /\
       ((exists v, r = Ok v /\
                   cache_of p st' = firstn maxsize ((query, v) :: cache_of p st))
        \/ (exists e, r = Raise e /\ cache_of p st' = cache_of p st)))).
Proof.
  intros H.
  destruct (cache_find query (cache_of p st)) as [w|] eqn:Hfind.
  - rewrite (get_recommendations_hit _ _ _ _ _ Hfind) in H. injection H as <- <-.
    split.
    + intros q Hq. apply cache_of_with_cache_other. congruence.
    + left. exists w. rewrite cache_of_with_cache_same.
      split; [reflexivity|]. split; [reflexivity|]. split; [reflexivity|].
      destruct p; reflexivity.
  - rewrite (get_recommendations_miss _ _ _ _ Hfind) in H. cbv zeta in H.
    destruct (search_result p E _) as [w|e] eqn:Hres.
    + remember (firstn maxsize ((query, w) :: cache_of p st)) as c eqn:Hc.
      injection H as <- <-.
      split.
      * intros q Hq. rewrite cache_of_with_cache_other by congruence.
        apply cache_of_with_trace.
      * right. split; [reflexivity|]. split; [destruct p; reflexivity|].
        left. exists w. split; [reflexivity|].
        rewrite cache_of_with_cache_same. exact Hc.
    + injection H as <- <-. split.
      * intros q Hq. apply cache_of_with_trace.
      * right. split; [reflexivity|]. split; [reflexivity|].
        right. exists e. split; [reflexivity|]. apply cache_of_with_trace.
Qed.

(** A query that was answered is answered again from the memo: the same
    value, and no request. *)
Theorem search_is_memoized (E : env) (p : provider) (query : str)
    (st st1 : state) (v : value) :
  get_recommendations p E query st = Some (Ok v, st1) ->
  exists st2,
    get_recommendations p E query st1 = Some (Ok v, st2) /\
    trace st2 = trace st1.
Proof.
  intros H.
  assert (Hfind : cache_find query (cache_of p st1) = Some v).
  { destruct (get_recommendations_cases E p query st st1 _ H) as [_ [Hhit|Hmiss]].
    - destruct Hhit as (w & _ & Hw & -> & _). injection Hw as ->.
      cbn [cache_find]. rewrite eqb_refl. reflexivity.
    - destruct Hmiss as (_ & _ & [(w & Hw & ->)|(e & He & _)]); [|discriminate].
      injection Hw as ->. unfold maxsize. cbn [firstn cache_find].
      rewrite eqb_refl. reflexivity. }
  rewrite (get_recommendations_hit _ _ _ _ _ Hfind).
  eexists. split; [reflexivity|]. destruct p; reflexivity.
Qed.

Lemma search_is_memoized_witness :
  exists st2,
    get_recommendations OMDb Demo.offline (utf8 "foo")
      (with_cache OMDb
         (firstn maxsize ((utf8 "foo", (fetch_error, [])) :: cache_of OMDb initial_state))
         (with_trace
            (trace initial_state
             ++ [Get (JStr (search_url OMDb Demo.offline (utf8 "foo")))])
            initial_state))
    = Some (Ok (fetch_error, []), st2) /\
    trace st2
    = trace
        (with_cache OMDb
           (firstn maxsize ((utf8 "foo", (fetch_error, [])) :: cache_of OMDb initial_state))
           (with_trace
              (trace initial_state
               ++ [Get (JStr (search_url OMDb Demo.offline (utf8 "foo")))])
              initial_state)).
Proof.
  apply (search_is_memoized Demo.offline OMDb (utf8 "foo") initial_state).
  vm_compute. reflexivity.
Defined.

Section CacheInvariant.

(** A property of a memo that holds of the empty memo and is kept by a hit
    and by a miss holds of every memo of every state the process goes
    through. *)
Variable P : cache -> Prop.
Hypothesis P_empty : P [].
Hypothesis P_hit :
  forall query v c, P c -> cache_find query c = Some v ->
                    P ((query, v) :: cache_remove query c).
Hypothesis P_miss :
  forall query v c, P c -> cache_find query c = None ->
                    P (firstn maxsize ((query, v) :: c)).

Lemma get_recommendations_keeps (E : env) (p : provider) (query : str)
    (st st' : state) (r : result value) :
  (forall q, P (cache_of q st)) ->
  get_recommendations p E query st = Some (r, st') ->
  forall q, P (cache_of q st').
Proof.
  intros Hst H q.
  destruct (get_recommendations_cases E p query st st' r H) as [Hother Hp].
  destruct (provider_eq_dec q p) as [->|Hq]; [|rewrite (Hother q Hq); apply Hst].
  destruct Hp as [(v & Hfind & _ & -> & _)|(Hfind & _ & [(v & _ & ->)|(e & _ & ->)])].
  - apply P_hit; [apply Hst|exact Hfind].
  - apply P_miss; [apply Hst|exact Hfind].
  - apply Hst.
Qed.

Lemma recommend_keeps (E : env) (query : str) (st st' : state) (r : result value) :
  (forall q, P (cache_of q st)) ->
  recommend E query st = Some (r, st') ->
  forall q, P (cache_of q st').
Proof.
  intros Hs H. unfold recommend, Monad.bind, Monad.ret in H.
  destruct (get_recommendations_omdb E query st) as [[r1 st1]|] eqn:H1;
    [|discriminate].
  pose proof (get_recommendations_keeps E OMDb query st st1 _ Hs H1) as Hs1.
  destruct r1 as [omdb|e]; [|now injection H as <- <-].
  destruct (get_recommendations_tmdb E query st1) as [[r2 st2]|] eqn:H2;
    [|discriminate].
  pose proof (get_recommendations_keeps E TMDb query st1 st2 _ Hs1 H2) as Hs2.
  destruct r2 as [tmdb|e]; [|now injection H as <- <-].
  destruct (get_recommendations_books E query st2) as [[r3 st3]|] eqn:H3;
    [|discriminate].
  pose proof (get_recommendations_keeps E Books query st2 st3 _ Hs2 H3) as Hs3.
  destruct r3 as [books|e]; now injection H as <- <-.
Qed.

Lemma handle_message_keeps (E : env) (fuel : nat) (user_message : str)
    (st st' : state) (r : result unit) :
  (forall q, P (cache_of q st)) ->
  handle_message E fuel user_message st = Some (r, st') ->
  forall q, P (cache_of q st').
Proof.
  intros Hs H. unfold handle_message in H.
  destruct (contains (lower E user_message) keyword).
  - destruct (negb (truthy (strip (replace user_message keyword [])))).
    + intros q. rewrite (keeps_caches_emit _ st r st' H q). apply Hs.
    + unfold Monad.bind in H.
      destruct (recommend E _ st) as [[[reply|e] st1]|] eqn:H1; [| |discriminate].
      * intros q. rewrite (keeps_caches_deliver E fuel reply st1 r st' H q).
        eapply recommend_keeps; [exact Hs|exact H1].
      * injection H as <- <-. eapply recommend_keeps; [exact Hs|exact H1].
  - intros q.
    assert (Hk : keeps_caches
                   (Monad.bind (get_mistral_response E user_message)
                      (fun mistral_response =>
                         Monad.bind
                           (Monad.of_option
                              (split_message fuel mistral_response default_max_length))
                           (fun parts => reply_parts parts)))).
    { apply keeps_caches_bind.
      - unfold get_mistral_response.
        apply keeps_caches_bind; [apply keeps_caches_request|].
        intros o. apply keeps_caches_of_result.
      - intros text. apply keeps_caches_bind; [apply keeps_caches_of_option|].
        intros parts. apply keeps_caches_reply_parts. }
    rewrite (Hk st r st' H q). apply Hs.
Qed.

Lemma reachable_keeps (E : env) (st : state) :
  reachable E st -> forall q, P (cache_of q st).
Proof.
  induction 1 as [|st st' fuel user_message r _ IH H].
  - intros []; exact P_empty.
  - eapply handle_message_keeps; [exact IH|exact H].
Qed.

End CacheInvariant.

Lemma cache_remove_shorter (query : str) (c : cache) :
  (length (cache_remove query c) <= length c)%nat.
Proof.
  induction c as [|[q w] c IH]; [reflexivity|].
  cbn [cache_remove]. destruct (Str.eqb q query); simpl; lia.
Qed.

Lemma cache_remove_found (query : str) (c : cache) (v : value) :
  cache_find query c = Some v -> (length (cache_remove query c) < length c)%nat.
Proof.
  induction c as [|[q w] c IH]; [discriminate|].
  cbn [cache_find cache_remove]. destruct (Str.eqb q query).
  - intros _. pose proof (cache_remove_shorter query c). simpl. lia.
  - intros H. specialize (IH H). simpl. lia.
Qed.

Lemma cache_remove_keys (query : str) (c : cache) (q : str) :
  In q (map fst (cache_remove query c)) -> In q (map fst c) /\ q <> query.
Proof.
  induction c as [|[k w] c IH]; [intros []|].
  cbn [cache_remove]. destruct (Str.eqb k query) eqn:Hk.
  - intros H. destruct (IH H). split; [right; assumption|assumption].
  - cbn [map fst]. intros [<-|H].
    + split; [left; reflexivity|]. intros ->.
      rewrite eqb_refl in Hk. discriminate.
    + destruct (IH H). split; [right; assumption|assumption].
Qed.

Lemma cache_remove_nodup (query : str) (c : cache) :
  NoDup (map fst c) -> NoDup (map fst (cache_remove query c)).
Proof.
  induction c as [|[k w] c IH]; [intros H; exact H|].
  cbn [map fst]. intros H. inversion H as [|? ? Hk Hc]; subst.
  cbn [cache_remove]. destruct (Str.eqb k query); [now apply IH|].
  cbn [map fst]. constructor; [|now apply IH].
  intros Hin. apply cache_remove_keys in Hin. tauto.
Qed.

Lemma cache_find_none (query : str) (c : cache) :
  cache_find query c = None -> ~ In query (map fst c).
Proof.
  induction c as [|[k w] c IH]; [intros _ []|].
  cbn [cache_find]. destruct (Str.eqb k query) eqn:Hk; [discriminate|].
  cbn [map fst]. intros H [Hin|Hin].
  - subst k. rewrite eqb_refl in Hk. discriminate.
  - exact (IH H Hin).
Qed.

Lemma firstn_nodup {A : Type} (n : nat) (l : list A) : NoDup l -> NoDup (firstn n l).
Proof.
  revert l. induction n as [|n IH]; intros l H; [constructor|].
  destruct l as [|x l]; [constructor|].
  inversion H as [|? ? Hx Hl]; subst. cbn [firstn]. constructor.
  - intros Hin. apply in_firstn in Hin. exact (Hx Hin).
  - apply IH. exact Hl.
Qed.

(** In every state the process goes through, each of the three memos holds
    at most 128 entries and no query twice. *)
Theorem memos_stay_bounded (E : env) (st : state) (p : provider) :
  reachable E st ->
  (length (cache_of p st) <= 128)%nat /\ NoDup (map fst (cache_of p st)).
Proof.
  intros H.
  apply (reachable_keeps
           (fun c => (length c <= 128)%nat /\ NoDup (map fst c))) with (E := E);
    [| | |exact H].
  - split; [simpl; lia|constructor].
  - intros query v c [Hl Hn] Hfind. split.
    + pose proof (cache_remove_found query c v Hfind). simpl. lia.
    + cbn [map fst]. constructor; [|now apply cache_remove_nodup].
      intros Hin. apply cache_remove_keys in Hin. tauto.
  - intros query v c [Hl Hn] Hfind. split.
    + apply firstn_le_length.
    + rewrite <- firstn_map. apply firstn_nodup. cbn [map fst].
      constructor; [now apply cache_find_none|exact Hn].
Qed.

Lemma memos_stay_bounded_witness :
  match handle_message Demo.offline 1 (utf8 "рекомендации foo") initial_state with
  | Some (_, st') =>
      (length (cache_of OMDb st') <= 128)%nat /\ NoDup (map fst (cache_of OMDb st'))
  | None => True
  end.
Proof.
  destruct (handle_message Demo.offline 1 (utf8 "рекомендации foo") initial_state)
    as [[r st']|] eqn:H; [|exact I].
  apply (memos_stay_bounded Demo.offline st' OMDb).
  eapply reachable_step; [apply reachable_start|exact H].
Defined.

(** ** The replies of the handler *)

Lemma with_trace_twice (t t' : list event) (st : state) :
  with_trace t' (with_trace t st) = with_trace t' st.
Proof. reflexivity. Qed.

Lemma with_trace_same (st : state) : with_trace (trace st) st = st.
Proof. destruct st; reflexivity. Qed.

(** The parts are sent in their order, and nothing else is. *)
Lemma reply_parts_run (parts : list str) :
  forall st,
    reply_parts parts st
    = Some (Ok tt, with_trace (trace st ++ map ReplyText parts) st).
Proof.
  induction parts as [|part rest IH]; intros st.
  - cbn [reply_parts map]. rewrite app_nil_r, with_trace_same. reflexivity.
  - cbn [reply_parts map]. unfold Monad.bind, reply_text, Monad.emit.
    rewrite IH. cbn [trace with_trace]. rewrite <- app_assoc. reflexivity.
Qed.

Lemma split_message_parts_fit (message : str) (max_length : Z) (parts : list str) :
  0 <= max_length ->
  split_message_returns message max_length parts ->
  Forall (fun part => len part <= max_length) parts.
Proof.
  intros Hk [fuel H]. eapply split_message_loop_bound; [exact Hk| |exact H].
  constructor.
Qed.

(** A message without the keyword goes to the language model and nowhere
    else: one request with the whole message as prompt, then the answer
    (or the error text of [get_mistral_response]) in chunks of at most 4096
    characters, none empty, which concatenate to it.  No search is called
    and the memos stay as they were. *)
Theorem other_messages_go_to_the_model (E : env) (fuel : nat) (user_message : str)
    (st st' : state) :
  contains (lower E user_message) keyword = false ->
  handle_message E fuel user_message st = Some (Ok tt, st') ->
  exists answer parts,
    mistral_result (network E (trace st ++ [Post mistral_url user_message]))
    = Ok answer /\
    split_message_returns answer default_max_length parts /\
    concat parts = answer /\
    Forall (fun part => len part <= 4096 /\ part <> []) parts /\
    st' = with_trace (trace st ++ Post mistral_url user_message :: map ReplyText parts) st.
Proof.
  intros Hk H. unfold handle_message in H. rewrite Hk in H.
  unfold Monad.bind at 1 in H.
  unfold get_mistral_response, request, Monad.bind, Monad.emit, Monad.of_result in H.
  cbn [trace with_trace] in H.
  destruct (mistral_result (network E (trace st ++ [Post mistral_url user_message])))
    as [answer|e]; [|discriminate].
  unfold Monad.of_option in H.
  destruct (split_message fuel answer default_max_length) as [parts|] eqn:Hs;
    [|discriminate].
  rewrite reply_parts_run in H. injection H as <-.
  assert (Hret : split_message_returns answer default_max_length parts)
    by (exists fuel; exact Hs).
  exists answer, parts.
  split; [reflexivity|]. split; [exact Hret|].
  split; [exact (split_message_concat _ _ _ Hret)|]. split.
  - assert (Hb : Forall (fun part => len part <= 4096) parts)
      by (apply (split_message_parts_fit answer); [lia|exact Hret]).
    assert (Hn : Forall (fun part => part <> []) parts)
      by (eapply split_message_loop_nonempty; [|exact Hs]; constructor).
    rewrite Forall_forall in *. intros part Hp. split; [apply Hb|apply Hn]; exact Hp.
  - cbn [trace with_trace]. rewrite <- app_assoc. reflexivity.
Qed.

Lemma other_messages_go_to_the_model_witness :
  exists answer parts,
    mistral_result
      (network Demo.offline (trace initial_state ++ [Post mistral_url (utf8 "hello")]))
    = Ok answer /\
    split_message_returns answer default_max_length parts /\
    concat parts = answer /\
    Forall (fun part => len part <= 4096 /\ part <> []) parts /\
    with_trace [Post mistral_url (utf8 "hello"); ReplyText mistral_error] initial_state
    = with_trace
        (trace initial_state ++ Post mistral_url (utf8 "hello") :: map ReplyText parts)
        initial_state.
Proof.
  apply (other_messages_go_to_the_model Demo.offline 1 (utf8 "hello") initial_state).
  - vm_compute. reflexivity.
  - vm_compute. reflexivity.
Defined.

(** When the answer of the model is empty once stripped, the handler sends
    no reply at all. *)
Theorem empty_answer_sends_nothing (E : env) (fuel : nat) (user_message : str)
    (st : state) :
  contains (lower E user_message) keyword = false ->
  mistral_result (network E (trace st ++ [Post mistral_url user_message])) = Ok [] ->
  handle_message E (S fuel) user_message st
  = Some (Ok tt, with_trace (trace st ++ [Post mistral_url user_message]) st).
Proof.
  intros Hk Ha. unfold handle_message. rewrite Hk.
  unfold Monad.bind at 1.
  unfold get_mistral_response, request, Monad.bind, Monad.emit, Monad.of_result.
  cbn [trace with_trace]. rewrite Ha.
  cbn [split_message split_message_loop truthy negb Monad.of_option reply_parts].
  reflexivity.
Qed.

Lemma empty_answer_sends_nothing_witness :
  handle_message
    (Demo.world
       (Demo.answer 200
          (JObj [(utf8 "choices",
                  JArr [JObj [(utf8 "message",
                               JObj [(utf8 "content", JStr (utf8 "  "))])]])])))
    1 (utf8 "hello") initial_state
  = Some (Ok tt,
          with_trace (trace initial_state ++ [Post mistral_url (utf8 "hello")])
            initial_state).
Proof.
  apply empty_answer_sends_nothing.
  - vm_compute. reflexivity.
  - vm_compute. reflexivity.
Defined.

(** When one of the three searches raises, the handler raises the same
    exception: by then it has made at most three requests and has sent
    nothing to the chat. *)
Theorem search_exception_leaves_handler (E : env) (fuel : nat) (user_message : str)
    (st st1 : state) (e : exn) :
  contains (lower E user_message) keyword = true ->
  strip (replace user_message keyword []) <> [] ->
  recommend E (strip (replace user_message keyword [])) st = Some (Raise e, st1) ->
  handle_message E fuel user_message st = Some (Raise e, st1) /\
  exists requests,
    trace st1 = trace st ++ requests /\
    (length requests <= 3)%nat /\
    Forall (fun ev => exists url, ev = Get url) requests.
Proof.
  intros Hk Hq H. split.
  - unfold handle_message. rewrite Hk.
    apply truthy_true in Hq. rewrite Hq. cbn [negb].
    unfold Monad.bind. rewrite H. reflexivity.
  - set (query := strip (replace user_message keyword [])) in *.
    assert (Hstep : forall p s s' (r : result value),
               get_recommendations p E query s = Some (r, s') ->
               exists requests,
                 trace s' = trace s ++ requests /\ (length requests <= 1)%nat /\
                 Forall (fun ev => exists url, ev = Get url) requests).
    { intros p s s' r Hr.
      destruct (get_recommendations_cases E p query s s' r Hr) as [_ [Hhit|Hmiss]].
      - destruct Hhit as (v & _ & _ & _ & ->). exists [].
        rewrite app_nil_r. split; [reflexivity|]. split; [simpl; lia|constructor].
      - destruct Hmiss as (_ & -> & _). eexists. split; [reflexivity|].
        split; [simpl; lia|]. constructor; [eexists; reflexivity|constructor]. }
    unfold recommend, Monad.bind, Monad.ret in H.
    destruct (get_recommendations_omdb E query st) as [[r1 s1]|] eqn:H1;
      [|discriminate].
    destruct (Hstep OMDb _ _ _ H1) as (q1 & T1 & L1 & F1).
    destruct r1 as [omdb|e1].
    2:{ injection H as <- <-. exists q1. split; [exact T1|]. split; [lia|exact F1]. }
    destruct (get_recommendations_tmdb E query s1) as [[r2 s2]|] eqn:H2;
      [|discriminate].
    destruct (Hstep TMDb _ _ _ H2) as (q2 & T2 & L2 & F2).
    destruct r2 as [tmdb|e2].
    2:{ injection H as <- <-. exists (q1 ++ q2). rewrite T2, T1, app_assoc.
        split; [reflexivity|]. split; [rewrite length_app; lia|].
        apply Forall_app. split; assumption. }
    destruct (get_recommendations_books E query s2) as [[r3 s3]|] eqn:H3;
      [|discriminate].
    destruct (Hstep Books _ _ _ H3) as (q3 & T3 & L3 & F3).
    destruct r3 as [books|e3]; [discriminate|].
    injection H as <- <-. exists (q1 ++ q2 ++ q3).
    rewrite T3, T2, T1, <- !app_assoc.
    split; [reflexivity|]. split; [rewrite !length_app; lia|].
    apply Forall_app. split; [assumption|].
    apply Forall_app. split; assumption.
Qed.

Lemma search_exception_leaves_handler_witness :
  handle_message (Demo.world (Demo.answer 200 (JArr []))) 1
    (utf8 "рекомендации foo") initial_state
  = Some (Raise AttributeError,
          with_trace
            [Get (JStr (omdb_url (Demo.world (Demo.answer 200 (JArr []))) (utf8 "foo")))]
            initial_state) /\
  exists requests,
    trace
      (with_trace
         [Get (JStr (omdb_url (Demo.world (Demo.answer 200 (JArr []))) (utf8 "foo")))]
         initial_state)
    = trace initial_state ++ requests /\
    (length requests <= 3)%nat /\
    Forall (fun ev => exists url, ev = Get url) requests.
Proof.
  apply search_exception_leaves_handler.
  - vm_compute. reflexivity.
  - vm_compute. discriminate.
  - vm_compute. reflexivity.
Defined.

(** ** More on what the searches and the model return *)

Lemma forall_add {A : Type} (P : A -> Prop) (l : list A) (x : A) :
  Forall P l -> P x -> Forall P (l ++ [x]).
Proof. intros Hl Hx. apply Forall_app. split; [exact Hl|]. constructor; [exact Hx|constructor]. Qed.

Lemma omdb_items_urls (E : env) (results : list json) :
  forall recommendations media found,
    omdb_items E results recommendations media = Ok found ->
    Forall (fun m => Py.truth (fst m) = true /\
                     Py.eq_str (fst m) (utf8 "N/A") = false) media ->
    Forall (fun m => Py.truth (fst m) = true /\
                     Py.eq_str (fst m) (utf8 "N/A") = false) (snd found).
Proof.
  induction results as [|item rest IH]; intros recommendations media found H Hm.
  - simpl in H. injection H as <-. exact Hm.
  - simpl in H. do 3 inv_bind H.
    apply IH in H; [exact H|].
    destruct (Py.truth x1) eqn:Ht; cbn [andb]; [|exact Hm].
    destruct (Py.eq_str x1 (utf8 "N/A")) eqn:Hn; cbn [negb]; [exact Hm|].
    apply forall_add; [exact Hm|]. cbn [fst]. split; assumption.
Qed.

Lemma tmdb_items_urls (E : env) (results : list json) :
  forall recommendations media found,
    tmdb_items E results recommendations media = Ok found ->
    Forall (fun m => Py.truth (fst m) = true) media ->
    Forall (fun m => Py.truth (fst m) = true) (snd found).
Proof.
  assert (Hitem : forall label title_key date_key item recommendations media found,
             tmdb_item E label title_key date_key item recommendations media = Ok found ->
             Forall (fun m => Py.truth (fst m) = true) media ->
             Forall (fun m => Py.truth (fst m) = true) (snd found)).
  { intros label title_key date_key item recommendations media found H Hm.
    unfold tmdb_item in H. do 4 inv_bind H.
    destruct (Py.truth x1); [|injection H as <-; exact Hm].
    inv_bind H. injection H as <-. cbn [snd].
    apply forall_add; [exact Hm|]. reflexivity. }
  induction results as [|item rest IH]; intros recommendations media found H Hm.
  - simpl in H. injection H as <-. exact Hm.
  - simpl in H. do 2 inv_bind H.
    apply IH in H; [exact H|].
    destruct (Py.eq_str x (utf8 "movie")); [eapply Hitem; eassumption|].
    inv_bind Hx0.
    destruct (Py.eq_str x1 (utf8 "tv")); [eapply Hitem; eassumption|].
    injection Hx0 as <-. exact Hm.
Qed.

Lemma books_items_urls (E : env) (results : list json) :
  forall recommendations media found,
    books_items E results recommendations media = Ok found ->
    Forall (fun m => Py.truth (fst m) = true) media ->
    Forall (fun m => Py.truth (fst m) = true) (snd found).
Proof.
  induction results as [|item rest IH]; intros recommendations media found H Hm.
  - simpl in H. injection H as <-. exact Hm.
  - simpl in H. do 6 inv_bind H.
    apply IH in H; [exact H|].
    destruct (Py.truth x4) eqn:Ht; [|exact Hm].
    apply forall_add; [exact Hm|exact Ht].
Qed.

(** No search returns a poster or cover without an address: what stands for
    the URL of a media entry always counts as true (it is not [None], not an
    empty string), and for OMDb it is never the marker "N/A". *)
Theorem search_media_have_urls (E : env) (p : provider) (o : http_outcome)
    (text : str) (media : media_list) (url : json) (caption : str) :
  search_result p E o = Ok (text, media) ->
  In (url, caption) media ->
  Py.truth url = true /\ (p = OMDb -> Py.eq_str url (utf8 "N/A") = false).
Proof.
  intros H Hin.
  assert (Hall : Forall (fun m => Py.truth (fst m) = true /\
                                  (p = OMDb -> Py.eq_str (fst m) (utf8 "N/A") = false))
                   media).
  { destruct p; cbn [search_result] in H;
      apply except_request_exception_ok in H;
      (destruct H as [H|H]; [|injection H as -> ->; destruct Hin]).
    - unfold omdb_try in H. do 3 inv_bind H.
      destruct (Py.eq_str x1 (utf8 "True"));
        [|injection H as <- <-; destruct Hin].
      do 3 inv_bind H. injection H as <- <-.
      apply omdb_items_urls in Hx4; [|constructor].
      eapply Forall_impl; [|exact Hx4]. intros m [H1 H2]. split; [exact H1|].
      intros _. exact H2.
    - unfold tmdb_try in H. do 3 inv_bind H.
      destruct (Py.truth x1); [|injection H as <- <-; destruct Hin].
      do 3 inv_bind H. injection H as <- <-.
      apply tmdb_items_urls in Hx4; [|constructor].
      eapply Forall_impl; [|exact Hx4]. intros m H1. split; [exact H1|discriminate].
    - unfold books_try in H. do 3 inv_bind H.
      destruct (Py.truth x1); [|injection H as <- <-; destruct Hin].
      do 3 inv_bind H. injection H as <- <-.
      apply books_items_urls in Hx4; [|constructor].
      eapply Forall_impl; [|exact Hx4]. intros m H1. split; [exact H1|discriminate]. }
  rewrite Forall_forall in Hall. exact (Hall (url, caption) Hin).
Qed.

Lemma search_media_have_urls_witness :
  Py.truth (JStr (utf8 "http://p")) = true /\
  (OMDb = OMDb -> Py.eq_str (JStr (utf8 "http://p")) (utf8 "N/A") = false).
Proof.
  apply (search_media_have_urls Demo.offline OMDb
           (Demo.answer 200
              (JObj [(utf8 "Response", JStr (utf8 "True"));
                     (utf8 "Search",
                      JArr [JObj [(utf8 "Title", JStr (utf8 "Foo"));
                                  (utf8 "Year", JStr (utf8 "2020"));
                                  (utf8 "Poster", JStr (utf8 "http://p"))];
                            JObj [(utf8 "Title", JStr (utf8 "Bar"));
                                  (utf8 "Poster", JStr (utf8 "N/A"))]])]))
           (utf8 "Foo (2020)" ++ [nl] ++ utf8 "Bar (" ++ no_year ++ utf8 ")")
           [(JStr (utf8 "http://p"), utf8 "Foo (2020)")]
           (JStr (utf8 "http://p")) (utf8 "Foo (2020)")).
  - vm_compute. reflexivity.
  - left. reflexivity.
Defined.

Lemma mistral_failure_is_caught_witness : mistral_result Failed = Ok mistral_error.
Proof. apply mistral_failure_is_caught. reflexivity. Defined.

(** An answer of the model with an empty list of choices: [data['choices'][0]]
    raises [IndexError], which no [except] clause catches, so the handler
    raises it and sends nothing. *)
Theorem empty_choices_leave_handler (E : env) (fuel : nat) (user_message : str)
    (st : state) (r : response) (data : json) :
  contains (lower E user_message) keyword = false ->
  network E (trace st ++ [Post mistral_url user_message]) = Answered r ->
  raise_for_status r = Ok tt ->
  json_body r = Some data ->
  Py.item data (utf8 "choices") = Ok (JArr []) ->
  handle_message E fuel user_message st
  = Some (Raise IndexError,
          with_trace (trace st ++ [Post mistral_url user_message]) st).
Proof.
  intros Hk Hn Hs Hb Hc. unfold handle_message. rewrite Hk.
  unfold Monad.bind at 1.
  unfold get_mistral_response, request, Monad.bind, Monad.emit, Monad.of_result.
  cbn [trace with_trace]. rewrite Hn.
  unfold mistral_result, mistral_try. cbn [checked]. rewrite Hs. cbn [Res.bind].
  unfold response_json. rewrite Hb. cbn [Res.bind]. rewrite Hc. reflexivity.
Qed.

Lemma empty_choices_leave_handler_witness :
  handle_message
    (Demo.world (Demo.answer 200 (JObj [(utf8 "choices", JArr [])])))
    1 (utf8 "hello") initial_state
  = Some (Raise IndexError,
          with_trace (trace initial_state ++ [Post mistral_url (utf8 "hello")])
            initial_state).
Proof.
  apply (empty_choices_leave_handler _ 1 (utf8 "hello") initial_state
           {| status_code := 200; content := [];
              json_body := Some (JObj [(utf8 "choices", JArr [])]) |}
           (JObj [(utf8 "choices", JArr [])])).
  - vm_compute. reflexivity.
  - reflexivity.
  - reflexivity.
  - reflexivity.
  - vm_compute. reflexivity.
Defined.

Lemma header_lines_once_witness :
  line_count omdb_header
    (fst (aggregate (utf8 "Foo (2020)", []) ([], []) (not_found, [])))
  = (if truthy (fst (utf8 "Foo (2020)", @nil (json * str))) then 1 else 0)%nat /\
  line_count tmdb_header
    (fst (aggregate (utf8 "Foo (2020)", []) ([], []) (not_found, [])))
  = (if truthy (fst (@nil char, @nil (json * str))) then 1 else 0)%nat /\
  line_count books_header
    (fst (aggregate (utf8 "Foo (2020)", []) ([], []) (not_found, [])))
  = (if truthy (fst (not_found, @nil (json * str))) then 1 else 0)%nat.
Proof.
  apply (header_lines_once (utf8 "Foo (2020)", []) ([], []) (not_found, [])).
  intros header body Hh Hb.
  cbn [In fst] in Hh, Hb.
  destruct Hh as [<-|[<-|[<-|[]]]]; destruct Hb as [<-|[<-|[<-|[]]]];
    vm_compute; intros [H|[]]; discriminate H.
Defined.

(** ** The aggregated reply, on its media and on the lines of its text *)

(** C5, amended.  For every query, the media of the aggregated reply are the
    media of the OMDb search, then those of the TMDb search, then those of
    the books search.  When no line of the three texts is itself one of the
    three header lines, the header of a search is a line of the reply text
    exactly once if the text of that search is not empty, and not at all if
    it is empty. *)
Theorem recommend_in_provider_order (E : env) (query : str) (st st' : state)
    (reply : value) :
  caches_sound E st ->
  recommend E query st = Some (Ok reply, st') ->
  exists omdb tmdb books st1 st2,
    get_recommendations_omdb E query st = Some (Ok omdb, st1) /\
    get_recommendations_tmdb E query st1 = Some (Ok tmdb, st2) /\
    get_recommendations_books E query st2 = Some (Ok books, st') /\
    snd reply = snd omdb ++ snd tmdb ++ snd books /\
    ((forall header body,
         In header [omdb_header; tmdb_header; books_header] ->
         In body [fst omdb; fst tmdb; fst books] ->
         ~ In header (split_lines body)) ->
     line_count omdb_header (fst reply) = (if truthy (fst omdb) then 1 else 0)%nat /\
     line_count tmdb_header (fst reply) = (if truthy (fst tmdb) then 1 else 0)%nat /\
     line_count books_header (fst reply) = (if truthy (fst books) then 1 else 0)%nat).
Proof.
  intros Hs H.
  destruct (recommend_returns E query st st' reply Hs H)
    as (omdb & tmdb & books & st1 & st2 & H1 & H2 & H3 & R1 & R2 & R3 & -> & _).
  exists omdb, tmdb, books, st1, st2.
  split; [exact H1|]. split; [exact H2|]. split; [exact H3|].
  split.
  - apply aggregate_media; eapply returned_media; eassumption.
  - apply aggregate_header_lines.
Qed.

Lemma recommend_in_provider_order_witness :
  match recommend Demo.offline (utf8 "foo") initial_state with
  | Some (Ok reply, st') =>
      snd reply = [] /\
      line_count omdb_header (fst reply) = 1%nat /\
      line_count tmdb_header (fst reply) = 1%nat /\
      line_count books_header (fst reply) = 1%nat
  | _ => False
  end.
Proof.
  destruct (recommend Demo.offline (utf8 "foo") initial_state)
    as [[[reply|e] st']|] eqn:H.
  - destruct (recommend_in_provider_order Demo.offline (utf8 "foo") initial_state
                st' reply (caches_sound_initial Demo.offline) H)
      as (omdb & tmdb & books & st1 & st2 & H1 & H2 & H3 & Hm & Hl).
    vm_compute in H1. injection H1 as <- <-.
    vm_compute in H2. injection H2 as <- <-.
    vm_compute in H3. injection H3 as <- _.
    split; [exact Hm|]. apply Hl.
    intros header body Hh Hb. cbn [In fst] in Hh, Hb.
    destruct Hh as [<-|[<-|[<-|[]]]]; destruct Hb as [<-|[<-|[<-|[]]]];
      vm_compute; intros [Hx|[]]; discriminate Hx.
  - vm_compute in H. discriminate H.
  - vm_compute in H. discriminate H.
Defined.

(** C5, as the specification has it, fails on the text: when OMDb returns a
    title that runs over several lines, one of them the header of the TMDb
    block, and TMDb returns a series, the TMDb header is a line of the reply
    text twice. *)
Lemma header_can_be_a_line_twice :
  match recommend
          (Demo.scripted [Demo.answer 200 Demo.odd_film;
                          Demo.answer 200 Demo.foo_series_found])
          (utf8 "foo") initial_state with
  | Some (Ok reply, _) => line_count tmdb_header (fst reply) = 2%nat
  | _ => False
  end.
Proof. vm_compute. reflexivity. Qed.

(** ** The requests of the recommendation path *)

Lemma extends_trace_ret {A : Type} (a : A) : extends_trace (Monad.ret a).
Proof.
  intros st r st' H. unfold Monad.ret in H. injection H as <- <-.
  exists []. now rewrite app_nil_r.
Qed.

Lemma extends_trace_emit (ev : event) : extends_trace (Monad.emit ev).
Proof.
  intros st r st' H. unfold Monad.emit in H. injection H as <- <-.
  exists [ev]. reflexivity.
Qed.

Lemma extends_trace_of_option {A : Type} (x : option A) :
  extends_trace (Monad.of_option x).
Proof.
  intros st r st' H. unfold Monad.of_option in H.
  destruct x; [|discriminate]. injection H as <- <-.
  exists []. now rewrite app_nil_r.
Qed.

Lemma extends_trace_bind {A B : Type} (m : M A) (k : A -> M B) :
  extends_trace m -> (forall a, extends_trace (k a)) ->
  extends_trace (Monad.bind m k).
Proof.
  intros Hm Hk st r st' H. unfold Monad.bind in H.
  destruct (m st) as [[[a|e] st1]|] eqn:E1; [| |discriminate].
  - destruct (Hm st _ st1 E1) as [added1 H1].
    destruct (Hk a st1 r st' H) as [added2 H2].
    exists (added1 ++ added2). rewrite H2, H1, app_assoc. reflexivity.
  - injection H as <- <-. exact (Hm st _ st1 E1).
Qed.

Lemma extends_trace_request (E : env) (ev : event) : extends_trace (request E ev).
Proof.
  unfold request. apply extends_trace_bind; [apply extends_trace_emit|].
  intros _ st r st' H. injection H as <- <-. exists []. now rewrite app_nil_r.
Qed.

Lemma extends_trace_reply_parts (parts : list str) : extends_trace (reply_parts parts).
Proof.
  induction parts as [|part rest IH]; cbn [reply_parts].
  - apply extends_trace_ret.
  - apply extends_trace_bind; [apply extends_trace_emit|intros _; exact IH].
Qed.

Lemma extends_trace_relay (E : env) (media : media_list) : extends_trace (relay E media).
Proof.
  induction media as [|[poster_url caption] rest IH]; cbn [relay].
  - apply extends_trace_ret.
  - apply extends_trace_bind; [apply extends_trace_request|]. intros o.
    apply extends_trace_bind; [|intros _; exact IH].
    destruct (checked o); apply extends_trace_emit.
Qed.

Lemma extends_trace_deliver (E : env) (fuel : nat) (reply : value) :
  extends_trace (deliver E fuel reply).
Proof.
  unfold deliver. destruct (truthy (fst reply)); [|apply extends_trace_emit].
  apply extends_trace_bind; [apply extends_trace_of_option|]. intros parts.
  apply extends_trace_bind; [apply extends_trace_reply_parts|]. intros _.
  apply extends_trace_relay.
Qed.

(** A search whose memo does not hold the query makes its request. *)
Lemma get_recommendations_requests (E : env) (p : provider) (query : str)
    (st st' : state) (r : result value) :
  cache_find query (cache_of p st) = None ->
  get_recommendations p E query st = Some (r, st') ->
  trace st' = trace st ++ [Get (JStr (search_url p E query))] /\
  forall q, q <> p -> cache_of q st' = cache_of q st.
Proof.
  intros Hmiss H.
  destruct (get_recommendations_cases E p query st st' r H) as [Hother Hp].
  split; [|exact Hother].
  destruct Hp as [(v & Hfind & _)|(_ & Ht & _)]; [congruence|exact Ht].
Qed.

(** When no memo holds the query, the three searches make their three
    requests, OMDb first, then TMDb, then Google Books, each with the query
    in its URL. *)
Lemma recommend_requests (E : env) (query : str) (st st' : state) (reply : value) :
  (forall p, cache_find query (cache_of p st) = None) ->
  recommend E query st = Some (Ok reply, st') ->
  trace st' = trace st ++ [Get (JStr (omdb_url E query));
                           Get (JStr (tmdb_url E query));
                           Get (JStr (books_url E query))].
Proof.
  intros Hmiss H. unfold recommend, Monad.bind, Monad.ret in H.
  destruct (get_recommendations_omdb E query st) as [[[omdb|e] st1]|] eqn:H1;
    try discriminate.
  destruct (get_recommendations_requests E OMDb query st st1 _ (Hmiss OMDb) H1)
    as [T1 K1].
  destruct (get_recommendations_tmdb E query st1) as [[[tmdb|e] st2]|] eqn:H2;
    try discriminate.
  assert (M2 : cache_find query (cache_of TMDb st1) = None)
    by (rewrite K1 by discriminate; apply Hmiss).
  destruct (get_recommendations_requests E TMDb query st1 st2 _ M2 H2) as [T2 K2].
  destruct (get_recommendations_books E query st2) as [[[books|e] st3]|] eqn:H3;
    try discriminate.
  assert (M3 : cache_find query (cache_of Books st2) = None)
    by (rewrite K2, K1 by discriminate; apply Hmiss).
  destruct (get_recommendations_requests E Books query st2 st3 _ M3 H3) as [T3 _].
  injection H as <- <-.
  rewrite T3, T2, T1, <- !app_assoc. reflexivity.
Qed.

(** What the handler asks the three catalogues for: the message without the
    lower-case keyword, stripped. *)
Lemma handle_message_requests (E : env) (fuel : nat) (user_message : str)
    (st st' : state) :
  contains (lower E user_message) keyword = true ->
  strip (replace user_message keyword []) <> [] ->
  (forall p, cache_find (strip (replace user_message keyword [])) (cache_of p st)
             = None) ->
  handle_message E fuel user_message st = Some (Ok tt, st') ->
  exists rest,
    trace st'
    = trace st
      ++ Get (JStr (omdb_url E (strip (replace user_message keyword []))))
      :: Get (JStr (tmdb_url E (strip (replace user_message keyword []))))
      :: Get (JStr (books_url E (strip (replace user_message keyword []))))
      :: rest.
Proof.
  intros Hk Hq Hmiss H. unfold handle_message in H. rewrite Hk in H.
  apply truthy_true in Hq. rewrite Hq in H. cbn [negb] in H.
  unfold Monad.bind in H.
  destruct (recommend E _ st) as [[[reply|e] st3]|] eqn:Hr; try discriminate.
  destruct (extends_trace_deliver E fuel reply st3 _ st' H) as [rest Hrest].
  exists rest. rewrite Hrest, (recommend_requests E _ st st3 reply Hmiss Hr).
  rewrite <- app_assoc. reflexivity.
Qed.

Lemma contains_inside (before s after sub : str) :
  contains s sub = true -> contains (before ++ s ++ after) sub = true.
Proof. intros H. apply contains_after, contains_before. exact H. Qed.

(** C10.  The keyword is looked for in the lower-cased message and removed
    from the message as it is.  For the message "Рекомендации фильмы", which
    holds the keyword only with a capital letter, the handler takes the
    recommendation path and asks OMDb, TMDb and Google Books for the whole
    message: the URL of each request holds the capitalised keyword.  For
    "рекомендации фильмы" it asks them for "фильмы". *)
Theorem keyword_is_kept_in_query (E : env) (fuel : nat) (st st1 st2 : state) :
  lower E Demo.capital_request = Demo.lowered_request ->
  lower E Demo.lowered_request = Demo.lowered_request ->
  (forall p, cache_find Demo.capital_request (cache_of p st) = None) ->
  (forall p, cache_find (utf8 "фильмы") (cache_of p st) = None) ->
  handle_message E fuel Demo.capital_request st = Some (Ok tt, st1) ->
  handle_message E fuel Demo.lowered_request st = Some (Ok tt, st2) ->
  contains Demo.capital_request keyword = false /\
  (exists rest,
      trace st1
      = trace st
        ++ Get (JStr (omdb_url E Demo.capital_request))
        :: Get (JStr (tmdb_url E Demo.capital_request))
        :: Get (JStr (books_url E Demo.capital_request))
        :: rest) /\
  contains (omdb_url E Demo.capital_request) (utf8 "Рекомендации") = true /\
  contains (tmdb_url E Demo.capital_request) (utf8 "Рекомендации") = true /\
  contains (books_url E Demo.capital_request) (utf8 "Рекомендации") = true /\
  (exists rest,
      trace st2
      = trace st
        ++ Get (JStr (omdb_url E (utf8 "фильмы")))
        :: Get (JStr (tmdb_url E (utf8 "фильмы")))
        :: Get (JStr (books_url E (utf8 "фильмы")))
        :: rest).
Proof.
  intros Hcap Hlow Mcap Mlow H1 H2.
  assert (Qcap : strip (replace Demo.capital_request keyword []) = Demo.capital_request)
    by (vm_compute; reflexivity).
  assert (Qlow : strip (replace Demo.lowered_request keyword []) = utf8 "фильмы")
    by (vm_compute; reflexivity).
  assert (Kin : contains Demo.lowered_request keyword = true)
    by (vm_compute; reflexivity).
  assert (Cin : contains Demo.capital_request (utf8 "Рекомендации") = true)
    by (vm_compute; reflexivity).
  split; [vm_compute; reflexivity|].
  split.
  { destruct (handle_message_requests E fuel Demo.capital_request st st1) as [rest Hr].
    - rewrite Hcap. exact Kin.
    - rewrite Qcap. discriminate.
    - rewrite Qcap. exact Mcap.
    - exact H1.
    - exists rest. rewrite Hr, Qcap. reflexivity. }
  split; [unfold omdb_url; apply contains_inside; exact Cin|].
  split.
  { unfold tmdb_url. do 3 apply contains_after. apply contains_before. exact Cin. }
  split; [unfold books_url; apply contains_inside; exact Cin|].
  destruct (handle_message_requests E fuel Demo.lowered_request st st2) as [rest Hr].
  - rewrite Hlow. exact Kin.
  - rewrite Qlow. discriminate.
  - rewrite Qlow. exact Mlow.
  - exact H2.
  - exists rest. rewrite Hr, Qlow. reflexivity.
Qed.

Lemma keyword_is_kept_in_query_witness :
  match handle_message Demo.offline 1 Demo.capital_request initial_state,
        handle_message Demo.offline 1 Demo.lowered_request initial_state with
  | Some (Ok tt, st1), Some (Ok tt, st2) =>
      contains Demo.capital_request keyword = false /\
      (exists rest,
          trace st1
          = trace initial_state
            ++ Get (JStr (omdb_url Demo.offline Demo.capital_request))
            :: Get (JStr (tmdb_url Demo.offline Demo.capital_request))
            :: Get (JStr (books_url Demo.offline Demo.capital_request))
            :: rest) /\
      contains (omdb_url Demo.offline Demo.capital_request) (utf8 "Рекомендации") = true /\
      contains (tmdb_url Demo.offline Demo.capital_request) (utf8 "Рекомендации") = true /\
      contains (books_url Demo.offline Demo.capital_request) (utf8 "Рекомендации") = true /\
      (exists rest,
          trace st2
          = trace initial_state
            ++ Get (JStr (omdb_url Demo.offline (utf8 "фильмы")))
            :: Get (JStr (tmdb_url Demo.offline (utf8 "фильмы")))
            :: Get (JStr (books_url Demo.offline (utf8 "фильмы")))
            :: rest)
  | _, _ => False
  end.
Proof.
  destruct (handle_message Demo.offline 1 Demo.capital_request initial_state)
    as [[[[]|e1] st1]|] eqn:H1;
    [|vm_compute in H1; discriminate H1|vm_compute in H1; discriminate H1].
  destruct (handle_message Demo.offline 1 Demo.lowered_request initial_state)
    as [[[[]|e2] st2]|] eqn:H2;
    [|vm_compute in H2; discriminate H2|vm_compute in H2; discriminate H2].
  apply (keyword_is_kept_in_query Demo.offline 1 initial_state st1 st2).
  - vm_compute. reflexivity.
  - vm_compute. reflexivity.
  - intros []; reflexivity.
  - intros []; reflexivity.
  - exact H1.
  - exact H2.
Defined.
